(** * Update-check route and storage contract of code-push-server

    A shallow embedding of [src/api/script/routes/acquisition.ts]
    (request decoding, app-version normalization, cache keys, the
    update-check promise chain) together with models of the collaborators
    that are not part of this source tree: the rollout selector and the
    storage backends, modelled from the specification. *)

From stdpp Require Import base gmap strings list fin_maps pretty.
From Stdlib Require Import Ascii String ZArith.

Local Set Warnings "-register-all".

Local Open Scope Z_scope.

(* ===================================================================== *)
(** ** JavaScript values as seen by the route handlers                     *)
(* ===================================================================== *)

Module Js.

  (** The values a request field can hold: query strings give strings and
      arrays of strings, JSON bodies anything.  Numbers are kept integral. *)
Inductive jsval : Type :=
  | JUndefined
  | JNull
  | JBool (b : bool)
  | JNum (z : Z)
  | JStr (s : string)
  | JArr (xs : list jsval)
  | JObj (fields : list (string * jsval)).

  (** A JavaScript object as an ordered list of own properties. *)
Definition object := list (string * jsval).

  (** Property read [o.k]: [undefined] when absent. *)
Fixpoint get (o : object) (k : string) : jsval :=
    match o with
    | [] => JUndefined
    | (k', v) :: o' => if String.eqb k k' then v else get o' k
    end.

  (** ToBoolean *)
Definition truthy (v : jsval) : bool :=
    match v with
    | JUndefined | JNull => false
    | JBool b => b
    | JNum z => negb (Z.eqb z 0)
    | JStr s => negb (String.eqb s "")
    | JArr _ | JObj _ => true
    end.

  (** [a || b] *)
Definition or (a b : jsval) : jsval := if truthy a then a else b.

Definition is_string (v : jsval) : bool :=
    match v with JStr _ => true | _ => false end.

  (** ToString, i.e. [String(v)]; arrays are joined with commas, with
      [null]/[undefined] elements printed empty. *)
Fixpoint to_string (v : jsval) : string :=
    match v with
    | JUndefined => "undefined"
    | JNull => "null"
    | JBool true => "true"
    | JBool false => "false"
    | JNum z => pretty z
    | JStr s => s
    | JArr xs =>
        (fix join (xs : list jsval) : string :=
           match xs with
           | [] => ""
           | [x] => match x with JUndefined | JNull => "" | _ => to_string x end
           | x :: xs' =>
               (match x with JUndefined | JNull => "" | _ => to_string x end)
                 +:+ "," +:+ join xs'
           end) xs
    | JObj _ => "[object Object]"
    end.

  (** [{ ...o }] followed by [delete] of some keys. *)
Definition delete_keys (ks : list string) (o : object) : object :=
    List.filter (fun kv => negb (existsb (String.eqb kv.1) ks)) o.

End Js.

Import Js.

(* ===================================================================== *)
(** ** Characters and the regular expressions of [createResponseUsingStorage] *)
(* ===================================================================== *)

Module Version.

  (** [\d] *)
Definition is_digit (c : ascii) : bool :=
    (48 <=? nat_of_ascii c)%nat && (nat_of_ascii c <=? 57)%nat.

  (** Line terminators, which [.] does not match. *)
Definition is_line_terminator (c : ascii) : bool :=
    (nat_of_ascii c =? 10)%nat || (nat_of_ascii c =? 13)%nat.

  (** [[\+\-]] *)
Definition is_tag_start (c : ascii) : bool :=
    (nat_of_ascii c =? 43)%nat || (nat_of_ascii c =? 45)%nat.

  (** Longest prefix of digits and the rest. *)
Fixpoint span_digits (s : string) : string * string :=
    match s with
    | EmptyString => (EmptyString, EmptyString)
    | String c r =>
        if is_digit c then let (d, t) := span_digits r in (String c d, t)
        else (EmptyString, s)
    end.

  (** [.*$] *)
Fixpoint dot_star_end (s : string) : bool :=
    match s with
    | EmptyString => true
    | String c r => negb (is_line_terminator c) && dot_star_end r
    end.

  (** The optional tag group followed by the end of input: a [+] or [-]
      and then any characters other than line terminators. *)
Definition opt_tag_end (s : string) : bool :=
    match s with
    | EmptyString => true
    | String c r => is_tag_start c && dot_star_end r
    end.

Definition nonempty (s : string) : bool := negb (String.eqb s "").

  (** [/^\d+$/.test(s)] *)
Definition is_plain_integer_number (s : string) : bool :=
    let (d, r) := span_digits s in nonempty d && String.eqb r "".

  (** The second regular expression of the source (digits, a dot,
      digits, an optional tag): the digit runs are followed by a
      non-digit, so matching the longest run loses no match. *)
Definition is_missing_patch_version (s : string) : bool :=
    let (d1, r1) := span_digits s in
    match r1 with
    | String c r2 =>
        if (nat_of_ascii c =? 46)%nat then
          let (d2, r3) := span_digits r2 in
          nonempty d1 && nonempty d2 && opt_tag_end r3
        else false
    | EmptyString => false
    end.

  (** [s.search(/[\+\-]/)], with [-1] as [None]. *)
Fixpoint search_tag (s : string) : option nat :=
    match s with
    | EmptyString => None
    | String c r => if is_tag_start c then Some 0%nat else S <$> search_tag r
    end.

  (** [s.slice(0, i)] and [s.slice(i)] *)
Definition slice_to (s : string) (i : nat) : string := substring 0 i s.
Definition slice_from (s : string) (i : nat) : string :=
    substring i (String.length s - i)%nat s.

End Version.

(* ===================================================================== *)
(** ** Data of the update check                                           *)
(* ===================================================================== *)

(** [storage.ErrorCode] *)
Inductive ErrorCode : Type :=
| ConnectionFailed | NotFound | AlreadyExists | TooLarge | Expired | Invalid | Other.

(** The errors that travel through the promise chains: a cache (redis)
    error, a storage error with its kind, and a [TypeError] raised by a
    method call on a value of the wrong type. *)
Inductive error : Type :=
| RedisError (msg : string)
| StorageError (code : ErrorCode) (msg : string)
| TypeError.

(** The outcome of a promise (or of a callback that may throw). *)
Inductive settled (A : Type) : Type :=
| Resolved (a : A)
| Rejected (e : error).
Arguments Resolved {A} a.
Arguments Rejected {A} e.

(** [storage.Package] *)
Module Package.
Record t : Type := mk {
  appVersion : string;
  blobUrl : string;
  description : string;
  isDisabled : bool;
  isMandatory : bool;
  label : option string;
  manifestBlobUrl : string;
  packageHash : string;
  releasedBy : option string;
  rollout : option Z;
  size : Z;
  uploadTime : Z
}.
End Package.

(** [UpdateCheckRequest] as built by [createResponseUsingStorage]: the
    fields are copied from the request with a TypeScript cast only, so
    they hold whatever JavaScript value the request carried. *)
Module UpdateCheckRequest.
Record t : Type := mk {
  deploymentKey : jsval;
  appVersion : jsval;
  packageHash : jsval;
  isCompanion : jsval;
  label : string
}.
End UpdateCheckRequest.

(** [UpdateCheckResponse]; [target_binary_range] is [None] until the
    route handler sets it. *)
Module UpdateCheckResponse.
Record t : Type := mk {
  downloadURL : jsval;
  description : jsval;
  isAvailable : bool;
  isMandatory : bool;
  appVersion : jsval;
  packageHash : jsval;
  label : jsval;
  target_binary_range : option jsval
}.

(** [p.appVersion = v] *)
Definition set_appVersion (p : t) (v : jsval) : t :=
  mk (downloadURL p) (description p) (isAvailable p) (isMandatory p) v
     (packageHash p) (label p) (target_binary_range p).

(** [p.target_binary_range = v] *)
Definition set_target_binary_range (p : t) (v : jsval) : t :=
  mk (downloadURL p) (description p) (isAvailable p) (isMandatory p)
     (appVersion p) (packageHash p) (label p) (Some v).
End UpdateCheckResponse.

(** [UpdateCheckCacheResponse] *)
Module UpdateCheckCacheResponse.
Record t : Type := mk {
  originalPackage : UpdateCheckResponse.t;
  rolloutPackage : option UpdateCheckResponse.t;
  rollout : option Z
}.
End UpdateCheckCacheResponse.

(** [redis.CacheableResponse] *)
Module CacheableResponse.
Record t : Type := mk {
  statusCode : Z;
  body : UpdateCheckCacheResponse.t
}.
End CacheableResponse.

(** The parts of an [express.Request] the handlers read.  [url_pathname]
    and [query] are the pathname and the parsed query of
    [req.originalUrl]; the model uses the same parsed query for
    [req.query]. *)
Module Request.
Record t : Type := mk {
  method : string;
  path : string;
  url_pathname : string;
  query : object;
  body : option object
}.
End Request.

(** The collaborators imported by [acquisition.ts] whose code is not in
    this source tree, as parameters: the resolver
    [acquisitionUtils.getUpdatePackageInfo], the validators of
    [validationUtils], [redis.Utilities.getDeploymentKeyHash], and the
    hash underlying the rollout selector. *)
Record Env : Type := mkEnv {
  getUpdatePackageInfo : list Package.t -> UpdateCheckRequest.t -> UpdateCheckCacheResponse.t;
  isValidUpdateCheckRequest : UpdateCheckRequest.t -> bool;
  isValidKeyField : jsval -> bool;
  isValidAppVersionField : jsval -> bool;
  getDeploymentKeyHash : string -> string;
  rollout_hash : string -> Z
}.

(* ===================================================================== *)
(** ** Rollout selector                                                   *)
(* ===================================================================== *)

Module RolloutSelector.

(** Modelled from the spec: [isSelectedForRollout] of
    [utils/rollout-selector], which is not in this source tree.  "Derive a
    numeric bucket in [0,100) from a hash of clientUniqueId +
    releaseIdentifier. Selected iff bucket < rolloutPercentage; absent
    percentage = always selected." *)
Definition bucket (hash : string -> Z) (clientId releaseTag : string) : Z :=
  hash (clientId +:+ releaseTag) mod 100.

Definition isSelectedForRollout (hash : string -> Z) (clientId : string)
    (rollout : option Z) (releaseTag : string) : bool :=
  match rollout with
  | None => true
  | Some p => bucket hash clientId releaseTag <? p
  end.

End RolloutSelector.

(* ===================================================================== *)
(** ** [routes/acquisition.ts]                                             *)
(* ===================================================================== *)

Module Acquisition.
Import Version.

(** ASCII part of [String.prototype.toLowerCase]. *)
Definition lower_char (c : ascii) : ascii :=
  let n := nat_of_ascii c in
  if ((65 <=? n) && (n <=? 90))%nat then ascii_of_nat (n + 32) else c.

Fixpoint to_lower (s : string) : string :=
  match s with
  | EmptyString => EmptyString
  | String c r => String (lower_char c) (to_lower r)
  end.

(** [req.body || {}] *)
Definition body_or_empty (req : Request.t) : object :=
  match Request.body req with Some b => b | None => [] end.

(** [req.method === "POST" ? req.body || {} : req.query] *)
Definition source_of (req : Request.t) : object :=
  if String.eqb (Request.method req) "POST" then body_or_empty req else Request.query req.

(** [source.a || source.b || ""] *)
Definition field2 (source : object) (a b : string) : jsval :=
  or (or (get source a) (get source b)) (JStr "").

(** [typeof v === "string" ? v : ...] *)
Definition string_value (v : jsval) : option string :=
  match v with JStr s => Some s | _ => None end.

(** The two last alternatives of the [label] conditional. *)
Definition label_fallback (req : Request.t) : string :=
  match (if String.eqb (Request.method req) "GET"
         then string_value (get (Request.query req) "label") else None) with
  | Some q => q
  | None => match string_value (get (source_of req) "label") with Some l => l | None => "" end
  end.

(** The [label] of the update request (lines 67-75). *)
Definition request_label (req : Request.t) : string :=
  let source := source_of req in
  let labelField :=
    or (or (get source "label") (get source "previousLabel")) (get source "previous_label") in
  match string_value labelField with
  | Some s => if nonempty s then s else label_fallback req
  | None => label_fallback req
  end.

(** [isCompanion && isCompanion.toLowerCase() === "true"]: a truthy
    non-string has no [toLowerCase] and the call throws. *)
Definition companion_flag (v : jsval) : settled jsval :=
  if truthy v then
    match v with
    | JStr s => Resolved (JBool (String.eqb (to_lower s) "true"))
    | _ => Rejected TypeError
    end
  else Resolved v.

(** Lines 86-105: the normalized app version, [originalAppVersion]
    ([None] while unassigned) and the two regular-expression flags. *)
Record normalization : Type := mkNormalization {
  normalized : jsval;
  originalAppVersion : option jsval;
  isPlainIntegerNumber : bool;
  isMissingPatchVersion : bool
}.

Definition normalize_app_version (v : jsval) : settled normalization :=
  let plain := is_plain_integer_number (to_string v) in
  let v1 := if plain then JStr (to_string v +:+ ".0.0") else v in
  let o1 := if plain then Some v else None in
  let missing := is_missing_patch_version (to_string v1) in
  if missing then
    match v1 with
    | JStr s =>
        let v2 :=
          match search_tag s with
          | None => s +:+ ".0"
          | Some i => slice_to s i +:+ ".0" +:+ slice_from s i
          end in
        Resolved (mkNormalization (JStr v2) (Some v1) plain missing)
    | _ => Rejected TypeError  (* [originalAppVersion.search] on a non-string *)
    end
  else Resolved (mkNormalization v1 o1 plain missing).

(** [===] on values; objects and arrays built by different code are never
    the same object. *)
Definition strict_eq (a b : jsval) : bool :=
  match a, b with
  | JUndefined, JUndefined | JNull, JNull => true
  | JBool x, JBool y => Bool.eqb x y
  | JNum x, JNum y => Z.eqb x y
  | JStr x, JStr y => String.eqb x y
  | _, _ => false
  end.

(** Lines 115-121: echo the client's version string in the response. *)
Definition echo_original_app_version (n : normalization)
    (u : UpdateCheckCacheResponse.t) : UpdateCheckCacheResponse.t :=
  if (isMissingPatchVersion n || isPlainIntegerNumber n)
     && strict_eq (UpdateCheckResponse.appVersion (UpdateCheckCacheResponse.originalPackage u))
                  (normalized n)
  then
    let o := match originalAppVersion n with Some v => v | None => JUndefined end in
    UpdateCheckCacheResponse.mk
      (UpdateCheckResponse.set_appVersion (UpdateCheckCacheResponse.originalPackage u) o)
      ((fun p => UpdateCheckResponse.set_appVersion p o) <$> UpdateCheckCacheResponse.rolloutPackage u)
      (UpdateCheckCacheResponse.rollout u)
  else u.

(** The three malformed-request messages of lines 131-148. *)
Inductive malformed : Type :=
| MalformedDeploymentKey
| MalformedAppVersion
| MalformedRequest.

(** What the handlers do to the client response or the error channel. *)
Inductive event : Type :=
| EMalformed (m : malformed)
| ESend (statusCode : Z) (newApi : bool) (fromCache : bool) (updateInfo : UpdateCheckResponse.t)
| ECacheWrite (key url : string) (response : CacheableResponse.t)
| EErrorHandler (e : error).

(** The update request built at lines 62-84, before normalization. *)
Definition update_request (req : Request.t) : settled UpdateCheckRequest.t :=
  let source := source_of req in
  match companion_flag (field2 source "isCompanion" "is_companion") with
  | Rejected e => Rejected e
  | Resolved comp =>
      Resolved (UpdateCheckRequest.mk
        (field2 source "deploymentKey" "deployment_key")
        (field2 source "appVersion" "app_version")
        (field2 source "packageHash" "package_hash")
        comp
        (request_label req))
  end.

(** [normalizedRequest]: the request with its app version normalized. *)
Definition with_app_version (r : UpdateCheckRequest.t) (v : jsval) : UpdateCheckRequest.t :=
  UpdateCheckRequest.mk (UpdateCheckRequest.deploymentKey r) v
    (UpdateCheckRequest.packageHash r) (UpdateCheckRequest.isCompanion r)
    (UpdateCheckRequest.label r).

(** [createResponseUsingStorage]: the malformed-request response it sends
    and the promise it returns ([None] for [null]).  [history] is
    [storage.getPackageHistoryFromDeploymentKey]. *)
Definition createResponseUsingStorage (env : Env) (req : Request.t)
    (history : jsval -> settled (list Package.t))
    : list event * settled (option CacheableResponse.t) :=
  match update_request req with
  | Rejected e => ([], Rejected e)
  | Resolved r =>
      match normalize_app_version (UpdateCheckRequest.appVersion r) with
      | Rejected e => ([], Rejected e)
      | Resolved n =>
          let nr := with_app_version r (normalized n) in
          if isValidUpdateCheckRequest env nr then
            match history (UpdateCheckRequest.deploymentKey nr) with
            | Rejected e => ([], Rejected e)
            | Resolved packageHistory =>
                ([], Resolved (Some (CacheableResponse.mk 200
                   (echo_original_app_version n (getUpdatePackageInfo env packageHistory nr)))))
            end
          else
            let m :=
              if negb (isValidKeyField env (UpdateCheckRequest.deploymentKey r)) then MalformedDeploymentKey
              else if negb (isValidAppVersionField env (normalized n)) then MalformedAppVersion
              else MalformedRequest in
            ([EMalformed m], Resolved None)
      end
  end.

(** The client-identifying fields removed by [sanitizeClientQuery]. *)
Definition client_id_fields : list string := ["clientUniqueId"; "client_unique_id"].

(** [sanitizeClientQuery] *)
Definition sanitizeClientQuery (query : object) : object :=
  delete_keys client_id_fields query.

(** [querystring.escape] on ASCII text: the unreserved characters
    [A-Z a-z 0-9 - _ . ! ~ * ' ( )] stay, all others become [%XX]. *)
Definition unreserved (c : ascii) : bool :=
  let n := nat_of_ascii c in
  (((65 <=? n) && (n <=? 90)) || ((97 <=? n) && (n <=? 122)) || ((48 <=? n) && (n <=? 57))
   || existsb (Nat.eqb n) [45; 95; 46; 33; 126; 42; 39; 40; 41])%nat.

Definition hex_digit (n : nat) : ascii :=
  if (n <? 10)%nat then ascii_of_nat (48 + n)%nat else ascii_of_nat (55 + n)%nat.

Fixpoint qs_escape (s : string) : string :=
  match s with
  | EmptyString => EmptyString
  | String c r =>
      if unreserved c then String c (qs_escape r)
      else let n := nat_of_ascii c in
           String "%" (String (hex_digit (n / 16)%nat) (String (hex_digit (n mod 16)%nat) (qs_escape r)))
  end.

(** [convert(v, encode)] of Node's [querystring.stringify]. *)
Definition qs_convert (v : jsval) : string :=
  match v with
  | JStr s => qs_escape s
  | JNum z => pretty z
  | JBool true => "true"
  | JBool false => "false"
  | _ => ""
  end.

(** [fields += sep] when [fields] is already non-empty. *)
Definition qs_sep (fields : string) : string :=
  if nonempty fields then fields +:+ "&" else fields.

(** [querystring.stringify(obj)]: arrays give one pair per element and
    an empty array gives nothing. *)
Definition stringify (o : object) : string :=
  fold_left
    (fun fields kv =>
       let ks := qs_escape kv.1 +:+ "=" in
       match kv.2 with
       | JArr [] => fields
       | JArr (x :: xs) =>
           fold_left (fun f y => f +:+ "&" +:+ ks +:+ qs_convert y) xs
                     (qs_sep fields +:+ ks +:+ qs_convert x)
       | v => qs_sep fields +:+ ks +:+ qs_convert v
       end)
    o "".

(** [(qs ? "?" + qs : "")] *)
Definition with_query (p qs : string) : string :=
  p +:+ (if nonempty qs then "?" +:+ qs else "").

(** [getUrlKey(req.originalUrl)] *)
Definition getUrlKey (req : Request.t) : string :=
  with_query (Request.url_pathname req) (stringify (sanitizeClientQuery (Request.query req))).

(** [getCacheKey] *)
Definition getCacheKey (req : Request.t) : string :=
  if String.eqb (Request.method req) "POST" then
    with_query (Request.path req) (stringify (sanitizeClientQuery (body_or_empty req)))
  else getUrlKey req.

(** The pair under which [updateCheck] reads and writes the cache:
    [redis.Utilities.getDeploymentKeyHash(deploymentKey)] and the url key. *)
Definition cache_key (env : Env) (req : Request.t) : string * string :=
  let source := source_of req in
  (getDeploymentKeyHash env (to_string (field2 source "deploymentKey" "deployment_key")),
   getCacheKey req).

(** Lines 207-221: the rollout decision and the package given to the
    client. *)
Definition giveRolloutPackage (env : Env) (clientUniqueId : string)
    (u : UpdateCheckCacheResponse.t) : bool :=
  match UpdateCheckCacheResponse.rolloutPackage u with
  | Some rp =>
      if nonempty clientUniqueId then
        RolloutSelector.isSelectedForRollout (rollout_hash env) clientUniqueId
          (UpdateCheckCacheResponse.rollout u)
          (to_string (or (UpdateCheckResponse.label rp) (UpdateCheckResponse.packageHash rp)))
      else false
  | None => false
  end.

(** The package sent and the response object after line 224, which sets
    [target_binary_range] on that package in place: the package is shared
    with [response.body], so the cached copy carries the field too. *)
Definition choose_update_info (env : Env) (clientUniqueId : string)
    (response : CacheableResponse.t) : UpdateCheckResponse.t * CacheableResponse.t :=
  let u := CacheableResponse.body response in
  match UpdateCheckCacheResponse.rolloutPackage u with
  | Some rp =>
      if giveRolloutPackage env clientUniqueId u then
        let rp' := UpdateCheckResponse.set_target_binary_range rp (UpdateCheckResponse.appVersion rp) in
        (rp', CacheableResponse.mk (CacheableResponse.statusCode response)
                (UpdateCheckCacheResponse.mk (UpdateCheckCacheResponse.originalPackage u)
                   (Some rp') (UpdateCheckCacheResponse.rollout u)))
      else
        let op := UpdateCheckCacheResponse.originalPackage u in
        let op' := UpdateCheckResponse.set_target_binary_range op (UpdateCheckResponse.appVersion op) in
        (op', CacheableResponse.mk (CacheableResponse.statusCode response)
                (UpdateCheckCacheResponse.mk op' (Some rp) (UpdateCheckCacheResponse.rollout u)))
  | None =>
      let op := UpdateCheckCacheResponse.originalPackage u in
      let op' := UpdateCheckResponse.set_target_binary_range op (UpdateCheckResponse.appVersion op) in
      (op', CacheableResponse.mk (CacheableResponse.statusCode response)
              (UpdateCheckCacheResponse.mk op' None (UpdateCheckCacheResponse.rollout u)))
  end.

(** The [updateCheck] handler (lines 182-240) as the list of its effects,
    given the outcome of [redisManager.getCachedResponse] ([cache_read]),
    of the storage history lookup ([history]) and of
    [redisManager.setCachedResponse] ([cache_write]). *)
Definition updateCheck (env : Env) (newApi : bool) (req : Request.t)
    (cache_read : settled (option CacheableResponse.t))
    (history : jsval -> settled (list Package.t))
    (cache_write : settled unit) : list event :=
  let source := source_of req in
  let clientUniqueId := to_string (field2 source "clientUniqueId" "client_unique_id") in
  let '(key, url) := cache_key env req in
  (* .catch: store the redis error, continue with [null] *)
  let '(redisError, cachedResponse) :=
    match cache_read with
    | Rejected e => (Some e, None)
    | Resolved c => (None, c)
    end in
  let fromCache := bool_decide (is_Some cachedResponse) in
  let '(ev1, response) :=
    match cachedResponse with
    | Some r => ([], Resolved (Some r))
    | None => createResponseUsingStorage env req history
    end in
  let '(ev2, st) :=
    match response with
    | Rejected e => ([], Rejected e)
    | Resolved None => ([], Resolved tt)
    | Resolved (Some resp) =>
        let '(updateInfo, resp') := choose_update_info env clientUniqueId resp in
        let sent := [ESend (CacheableResponse.statusCode resp) newApi fromCache updateInfo] in
        if fromCache then (sent, Resolved tt)
        else (sent ++ [ECacheWrite key url resp'], cache_write)
    end in
  (* .then: rethrow the stored redis error; .catch: restErrorHandler *)
  let final :=
    match st with
    | Rejected e => Some e
    | Resolved _ => redisError
    end in
  ev1 ++ ev2 ++ match final with Some e => [EErrorHandler e] | None => [] end.

End Acquisition.

(* ===================================================================== *)
(** ** The storage contract                                               *)
(* ===================================================================== *)

(** Modelled from the spec: the backends ([script/storage/json-storage],
    [azure-storage]) are not in this source tree; the route code above and
    the shared contract tests in [api/test/storage.ts] are.  The operations below are
    modelled from the spec's contract, one state-passing function per
    operation, each returning the store it leaves behind also when it
    fails. *)
Module Storage.

Inductive Permission : Type := Owner | Collaborator.

Record CollaboratorProperties : Type := mkCollaborator {
  permission : Permission;
  accountId : N
}.

Record Account : Type := mkAccount {
  email : string;
  name : string;
  createdTime : Z
}.

Record App : Type := mkApp {
  app_name : string;
  collaborators : gmap string CollaboratorProperties
}.

Record Deployment : Type := mkDeployment {
  deployment_name : string;
  key : string;
  dep_app : N;
  packageHistory : list Package.t
}.

(** [DeploymentInfo] is the reverse index [deploymentKeys]: deployment key
    to the app and deployment it names. *)
Record Store : Type := mkStore {
  accounts : gmap N Account;
  emailToAccountId : gmap string N;
  apps : gmap N App;
  deployments : gmap N Deployment;
  deploymentKeys : gmap string (N * N);
  nextId : N
}.

Inductive result (A : Type) : Type :=
| Ok (a : A)
| Err (code : ErrorCode).
Arguments Ok {A} a.
Arguments Err {A} code.

(** Asynchronous, fallible operations on the store. *)
Definition M (A : Type) : Type := Store -> result A * Store.

Definition ret {A} (a : A) : M A := fun s => (Ok a, s).
Definition fail {A} (c : ErrorCode) : M A := fun s => (Err c, s).
Definition bind {A B} (m : M A) (k : A -> M B) : M B :=
  fun s => match m s with
           | (Ok a, s') => k a s'
           | (Err c, s') => (Err c, s')
           end.
Definition gets {A} (f : Store -> A) : M A := fun s => (Ok (f s), s).
Definition put (s : Store) : M unit := fun _ => (Ok tt, s).

Notation "x <- m ;; k" := (bind m (fun x => k)) (at level 100, m at next level, right associativity).
Notation "m ;;; k" := (bind m (fun _ => k)) (at level 100, right associativity).

(** [o] or fail with [c]. *)
Definition some_or {A} (c : ErrorCode) (o : option A) : M A :=
  match o with Some a => ret a | None => fail c end.

Definition fresh_id : M N :=
  fun s => (Ok (nextId s),
            mkStore (accounts s) (emailToAccountId s) (apps s) (deployments s)
                    (deploymentKeys s) (N.succ (nextId s))).

Definition set_accounts (a : gmap N Account) (e : gmap string N) : M unit :=
  fun s => (Ok tt, mkStore a e (apps s) (deployments s) (deploymentKeys s) (nextId s)).
Definition set_apps (a : gmap N App) : M unit :=
  fun s => (Ok tt, mkStore (accounts s) (emailToAccountId s) a (deployments s) (deploymentKeys s) (nextId s)).
Definition set_deployments (d : gmap N Deployment) (k : gmap string (N * N)) : M unit :=
  fun s => (Ok tt, mkStore (accounts s) (emailToAccountId s) (apps s) d k (nextId s)).

(** Emails are compared case-insensitively. *)
Definition email_key (e : string) : string := Acquisition.to_lower e.

(** [addAccount]: [AlreadyExists] on a case-insensitive email collision. *)
Definition addAccount (a : Account) : M N :=
  s <- gets id ;;
  match emailToAccountId s !! email_key (email a) with
  | Some _ => fail AlreadyExists
  | None =>
      i <- fresh_id ;;
      s' <- gets id ;;
      set_accounts (<[i := a]> (accounts s')) (<[email_key (email a) := i]> (emailToAccountId s')) ;;;
      ret i
  end.

Definition getAccount (accountId : N) : M Account :=
  s <- gets id ;; some_or NotFound (accounts s !! accountId).

(** The app [appId] as seen by [accountId]: [NotFound] when the app does
    not exist or the account is not one of its collaborators. *)
Definition app_in_scope (accountId appId : N) : M (Account * App) :=
  s <- gets id ;;
  acc <- some_or NotFound (accounts s !! accountId) ;;
  app <- some_or NotFound (apps s !! appId) ;;
  match collaborators app !! email acc with
  | Some _ => ret (acc, app)
  | None => fail NotFound
  end.

(** [addApp]: the caller becomes the app's only collaborator, as Owner. *)
Definition addApp (accountId : N) (appName : string) : M N :=
  s <- gets id ;;
  acc <- some_or NotFound (accounts s !! accountId) ;;
  i <- fresh_id ;;
  s' <- gets id ;;
  set_apps (<[i := mkApp appName {[ email acc := mkCollaborator Owner accountId ]}]> (apps s')) ;;;
  ret i.

Definition getApp (accountId appId : N) : M App :=
  p <- app_in_scope accountId appId ;; ret p.2.

(** [addCollaborator]: [NotFound] without an account for the email,
    [AlreadyExists] when already a collaborator. *)
Definition addCollaborator (accountId appId : N) (e : string) : M unit :=
  p <- app_in_scope accountId appId ;;
  s <- gets id ;;
  target <- some_or NotFound (emailToAccountId s !! email_key e) ;;
  tacc <- some_or NotFound (accounts s !! target) ;;
  match collaborators p.2 !! email tacc with
  | Some _ => fail AlreadyExists
  | None =>
      set_apps (<[appId := mkApp (app_name p.2)
                  (<[email tacc := mkCollaborator Collaborator target]> (collaborators p.2))]> (apps s))
  end.

(** Demote every Owner to Collaborator. *)
Definition demote (c : CollaboratorProperties) : CollaboratorProperties :=
  mkCollaborator Collaborator (accountId c).

Definition demote_owners (m : gmap string CollaboratorProperties) : gmap string CollaboratorProperties :=
  (fun c => match permission c with Owner => demote c | Collaborator => c end) <$> m.

(** [transferApp]: [NotFound] when the target has no account,
    [AlreadyExists] when the target is the current owner; otherwise the
    prior Owner becomes Collaborator and the target becomes Owner, all
    other collaborators kept. *)
Definition transferApp (accountId appId : N) (e : string) : M unit :=
  p <- app_in_scope accountId appId ;;
  s <- gets id ;;
  target <- some_or NotFound (emailToAccountId s !! email_key e) ;;
  tacc <- some_or NotFound (accounts s !! target) ;;
  match collaborators p.2 !! email tacc with
  | Some (mkCollaborator Owner _) => fail AlreadyExists
  | _ =>
      set_apps (<[appId := mkApp (app_name p.2)
                  (<[email tacc := mkCollaborator Owner target]> (demote_owners (collaborators p.2)))]>
                (apps s))
  end.

(** [removeApp]: cascade to the app's deployments (and their packages)
    and to their reverse-index entries. *)
Definition removeApp (accountId appId : N) : M unit :=
  _ <- app_in_scope accountId appId ;;
  s <- gets id ;;
  set_apps (delete appId (apps s)) ;;;
  set_deployments (filter (fun kv => dep_app kv.2 <> appId) (deployments s))
                  (filter (fun kv => kv.2.1 <> appId) (deploymentKeys s)).

(** [addDeployment]: a fresh deployment with an empty history, indexed by
    its key, which must be unused. *)
Definition addDeployment (accountId appId : N) (depName depKey : string) : M N :=
  _ <- app_in_scope accountId appId ;;
  s <- gets id ;;
  match deploymentKeys s !! depKey with
  | Some _ => fail AlreadyExists
  | None =>
      i <- fresh_id ;;
      s' <- gets id ;;
      set_deployments (<[i := mkDeployment depName depKey appId []]> (deployments s'))
                      (<[depKey := (appId, i)]> (deploymentKeys s')) ;;;
      ret i
  end.

(** The deployment [deploymentId] of the app [appId] seen by [accountId]. *)
Definition deployment_in_scope (accountId appId deploymentId : N) : M Deployment :=
  _ <- app_in_scope accountId appId ;;
  s <- gets id ;;
  dep <- some_or NotFound (deployments s !! deploymentId) ;;
  if decide (dep_app dep = appId) then ret dep else fail NotFound.

Definition getDeployment (accountId appId deploymentId : N) : M Deployment :=
  deployment_in_scope accountId appId deploymentId.

(** [package.label = l] *)
Definition set_label (p : Package.t) (l : string) : Package.t :=
  Package.mk (Package.appVersion p) (Package.blobUrl p) (Package.description p)
    (Package.isDisabled p) (Package.isMandatory p) (Some l) (Package.manifestBlobUrl p)
    (Package.packageHash p) (Package.releasedBy p) (Package.rollout p) (Package.size p)
    (Package.uploadTime p).

(** The label of the [n]-th package of a deployment: [v1], [v2], ... *)
Definition label_of_index (n : nat) : string := "v" +:+ pretty (N.of_nat n).

(** [commitPackage]: append to the history, the label auto-incremented. *)
Definition commitPackage (accountId appId deploymentId : N) (p : Package.t) : M Package.t :=
  dep <- deployment_in_scope accountId appId deploymentId ;;
  let p' := set_label p (label_of_index (S (List.length (packageHistory dep)))) in
  s <- gets id ;;
  set_deployments
    (<[deploymentId := mkDeployment (deployment_name dep) (key dep) (dep_app dep)
                         (packageHistory dep ++ [p'])]> (deployments s))
    (deploymentKeys s) ;;;
  ret p'.

Definition getPackageHistory (accountId appId deploymentId : N) : M (list Package.t) :=
  dep <- deployment_in_scope accountId appId deploymentId ;; ret (packageHistory dep).

(** [getPackageHistoryFromDeploymentKey]: through the reverse index. *)
Definition getPackageHistoryFromDeploymentKey (k : string) : M (list Package.t) :=
  s <- gets id ;;
  info <- some_or NotFound (deploymentKeys s !! k) ;;
  dep <- some_or NotFound (deployments s !! info.2) ;;
  ret (packageHistory dep).

(** [updatePackageHistory]: a null or empty history is refused with
    [Other] before anything is written. *)
Definition updatePackageHistory (accountId appId deploymentId : N)
    (history : option (list Package.t)) : M unit :=
  match history with
  | None | Some [] => fail Other
  | Some h =>
      dep <- deployment_in_scope accountId appId deploymentId ;;
      s <- gets id ;;
      set_deployments
        (<[deploymentId := mkDeployment (deployment_name dep) (key dep) (dep_app dep) h]>
           (deployments s))
        (deploymentKeys s)
  end.

(** Commit the packages one after the other. *)
Fixpoint commit_all (accountId appId deploymentId : N) (ps : list Package.t) : M (list Package.t) :=
  match ps with
  | [] => ret []
  | p :: ps' =>
      c <- commitPackage accountId appId deploymentId p ;;
      cs <- commit_all accountId appId deploymentId ps' ;;
      ret (c :: cs)
  end.

(** The packages [ps] as committed after [n] earlier ones. *)
Fixpoint labelled (n : nat) (ps : list Package.t) : list Package.t :=
  match ps with
  | [] => []
  | p :: ps' => set_label p (label_of_index (S n)) :: labelled (S n) ps'
  end.

(** The reverse index and the deployments agree. *)
Definition wf (s : Store) : Prop :=
  (forall k a d, deploymentKeys s !! k = Some (a, d) ->
     exists dep, deployments s !! d = Some dep /\ dep_app dep = a /\ key dep = k) /\
  (forall d dep, deployments s !! d = Some dep ->
     deploymentKeys s !! key dep = Some (dep_app dep, d)).

Definition empty_store : Store := mkStore ∅ ∅ ∅ ∅ ∅ 0%N.

End Storage.

(* ===================================================================== *)
(** ** Caller objects and the storage's own copies                         *)
(* ===================================================================== *)

Module InputObjects.

(** Modelled from the spec: the object handling of the mutating storage
    operations ([addAccount], [addAccessKey], [updateAccessKey], [addApp],
    [updateApp], [addDeployment], [updateDeployment], [commitPackage]) of
    the backends, which are not in this source tree.  "Mutating operations
    never mutate caller-supplied input objects": the caller passes an
    object by reference; an add stores a copy, extended with the new id
    (or the package label), at a location the storage allocates; an update
    copies the caller's properties onto the stored object named by the
    caller's [id]. *)
Definition loc := positive.

Inductive kind : Type := KAccount | KAccessKey | KApp | KDeployment | KPackage.

Definition kind_name (k : kind) : string :=
  match k with
  | KAccount => "account" | KAccessKey => "accessKey" | KApp => "app"
  | KDeployment => "deployment" | KPackage => "package"
  end.

Record State : Type := mkState {
  heap : gmap loc object;          (* every object, the caller's and the storage's *)
  owned : gset loc;                (* the storage's copies *)
  table : gmap string loc;         (* kind and id to the stored copy *)
  next : N
}.

Definition table_key (k : kind) (i : string) : string := kind_name k +:+ "/" +:+ i.

(** [o[k] = v] on a copy. *)
Fixpoint set_prop (o : object) (k : string) (v : jsval) : object :=
  match o with
  | [] => [(k, v)]
  | (k', v') :: o' => if String.eqb k k' then (k', v) :: o' else (k', v') :: set_prop o' k v
  end.

(** [Object.assign(stored, o)] *)
Definition assign (stored o : object) : object :=
  fold_left (fun acc kv => set_prop acc kv.1 kv.2) o stored.

Inductive op : Type :=
| AddAccount (l : loc)
| AddAccessKey (accountId : N) (l : loc)
| UpdateAccessKey (accountId : N) (l : loc)
| AddApp (accountId : N) (l : loc)
| UpdateApp (accountId : N) (l : loc)
| AddDeployment (accountId appId : N) (l : loc)
| UpdateDeployment (accountId appId : N) (l : loc)
| CommitPackage (accountId appId deploymentId : N) (l : loc).

(** Store a copy of [o] extended with [prop := id-or-label] as a new
    entity of kind [k]. *)
Definition add_copy (k : kind) (prop : string) (o : object) (s : State) : State :=
  let i := pretty (next s) in
  let fl := fresh (dom (heap s)) in
  let v := if String.eqb prop "id" then i else "v" +:+ i in
  mkState (<[fl := set_prop o prop (JStr v)]> (heap s)) ({[fl]} ∪ owned s)
          (<[table_key k i := fl]> (table s)) (N.succ (next s)).

(** Copy the properties of [o] onto the stored entity named by [o.id];
    [NotFound] (the state unchanged) when there is none. *)
Definition update_copy (k : kind) (o : object) (s : State) : State :=
  match get o "id" with
  | JStr i =>
      match table s !! table_key k i with
      | Some sl =>
          match heap s !! sl with
          | Some stored => mkState (<[sl := assign stored o]> (heap s)) (owned s) (table s) (next s)
          | None => s
          end
      | None => s
      end
  | _ => s
  end.

(** One operation; a missing caller object makes it fail without effect. *)
Definition step (s : State) (o : op) : State :=
  let with_obj l f := match heap s !! l with Some obj => f obj | None => s end in
  match o with
  | AddAccount l => with_obj l (fun obj => add_copy KAccount "id" obj s)
  | AddAccessKey _ l => with_obj l (fun obj => add_copy KAccessKey "id" obj s)
  | UpdateAccessKey _ l => with_obj l (fun obj => update_copy KAccessKey obj s)
  | AddApp _ l => with_obj l (fun obj => add_copy KApp "id" obj s)
  | UpdateApp _ l => with_obj l (fun obj => update_copy KApp obj s)
  | AddDeployment _ _ l => with_obj l (fun obj => add_copy KDeployment "id" obj s)
  | UpdateDeployment _ _ l => with_obj l (fun obj => update_copy KDeployment obj s)
  | CommitPackage _ _ _ l => with_obj l (fun obj => add_copy KPackage "label" obj s)
  end.

Definition run (s : State) (ops : list op) : State := fold_left step ops s.

(** Every table entry names one of the storage's own copies. *)
Definition table_owned (s : State) : Prop :=
  forall k l, table s !! k = Some l -> l ∈ owned s.

End InputObjects.

(* ===================================================================== *)
(** ** [utils/common.ts]: snake-case conversion of response bodies        *)
(* ===================================================================== *)

Module Common.

Definition is_upper (c : ascii) : bool :=
  let n := nat_of_ascii c in ((65 <=? n) && (n <=? 90))%nat.

Definition is_lower (c : ascii) : bool :=
  let n := nat_of_ascii c in ((97 <=? n) && (n <=? 122))%nat.

(** The ways [([A-Z]+)] can match at the start of [s], in the order the
    regular expression tries them: the longest run first, then shorter
    ones on backtracking. *)
Fixpoint upper_splits (s : string) : list (string * string) :=
  match s with
  | EmptyString => []
  | String c r =>
      if is_upper c
      then ((fun pq => (String c pq.1, pq.2)) <$> upper_splits r) ++ [(String c EmptyString, r)]
      else []
  end.

(** The first of those splits after which [([A-Z][a-z])] matches. *)
Fixpoint first_upper_lower (cands : list (string * string)) : option (string * ascii * ascii * string) :=
  match cands with
  | [] => None
  | (p, String c1 (String c2 rest)) :: cs =>
      if is_upper c1 && is_lower c2 then Some (p, c1, c2, rest) else first_upper_lower cs
  | _ :: cs => first_upper_lower cs
  end.

(** [/([A-Z]+)([A-Z][a-z])/] tried at the start of [s]: [$1], the two
    characters of [$2], and the text after the match. *)
Definition match_acronym (s : string) : option (string * ascii * ascii * string) :=
  first_upper_lower (upper_splits s).

(** [str.replace(/([A-Z]+)([A-Z][a-z])/g, "$1_$2")]: at each position try
    the expression; on a match emit the replacement and go on after the
    match, otherwise copy one character.  Every step consumes at least one
    character, so [String.length str] steps suffice. *)
Fixpoint replace_acronyms (fuel : nat) (s : string) : string :=
  match fuel with
  | O => s
  | S f =>
      match s with
      | EmptyString => EmptyString
      | String c r =>
          match match_acronym s with
          | Some (p, c1, c2, rest) => p +:+ "_" +:+ String c1 (String c2 (replace_acronyms f rest))
          | None => String c (replace_acronyms f r)
          end
      end
  end.

(** [str.replace(/([a-z])([A-Z])/g, "$1_$2")] *)
Fixpoint replace_camel (s : string) : string :=
  match s with
  | String c1 ((String c2 rest) as r) =>
      if is_lower c1 && is_upper c2
      then String c1 (String "_" (String c2 (replace_camel rest)))
      else String c1 (replace_camel r)
  | _ => s
  end.

(** [toSnakeCase] (lines 9-14), [toLowerCase] on ASCII text. *)
Definition toSnakeCase (str : string) : string :=
  Acquisition.to_lower (replace_camel (replace_acronyms (String.length str) str)).

(** [acc[k] = v] on an object made by [{}]: the key [__proto__] replaces
    the prototype and creates no own property. *)
Definition assign_key (acc : object) (k : string) (v : jsval) : object :=
  if String.eqb k "__proto__" then acc else InputObjects.set_prop acc k v.

(** [convertObjectToSnakeCase] (lines 16-30).  An object is the list of
    its own keys in [Object.keys] order.  [toSnakeCase] leaves a key made of
    digits alone and gives no such key from any other, so the engine's
    placing of integer keys first is the same in the input and the
    result. *)
Fixpoint convertObjectToSnakeCase (obj : jsval) : jsval :=
  match obj with
  | JArr xs => JArr (map convertObjectToSnakeCase xs)
  | JObj fs =>
      JObj (fold_left (fun acc kv => assign_key acc kv.1 kv.2)
              (map (fun kv => (toSnakeCase kv.1, convertObjectToSnakeCase kv.2)) fs) [])
  | _ => obj
  end.





End Common.

(* ===================================================================== *)
(** ** [routes/acquisition.ts]: the report-status handlers                *)
(* ===================================================================== *)

Module Report.

(** The calls the handlers make on [redisManager]. *)
Inductive redis_call : Type :=
| IncrementLabelStatusCount (deploymentKey label status : jsval)
| RecordUpdate (deploymentKey labelOrAppVersion previousDeploymentKey previousLabelOrAppVersion : jsval)
| RemoveDeploymentKeyClientActiveLabel (deploymentKey clientUniqueId : jsval)
| GetCurrentActiveLabel (deploymentKey clientUniqueId : jsval)
| UpdateActiveAppForClient (deploymentKey clientUniqueId toLabelOrAppVersion fromLabelOrAppVersion : jsval).

(** The messages of [sendMalformedRequestError] in the two handlers. *)
Inductive malformed : Type :=
| MissingAppVersionOrKey
| MissingStatus
| InvalidStatus (status : jsval)
| MissingClientUniqueId
| MissingDownloadFields.

Inductive event : Type :=
| Call (c : redis_call)
| Malformed (m : malformed)
| SendStatus (code : Z)
| UnknownError (e : error)
| Throw (e : error).   (* thrown synchronously out of the handler *)

(** What the handler answers the client with; [Throw] goes to Express's
    own error handler, which answers too. *)
Definition is_response (e : event) : bool :=
  match e with Call _ => false | _ => true end.

(** The redis calls of a trace, in order. *)
Definition calls (tr : list event) : list redis_call :=
  omap (fun e => match e with Call c => Some c | _ => None end) tr.

(** [redis.DOWNLOADED], [redis.DEPLOYMENT_FAILED],
    [redis.DEPLOYMENT_SUCCEEDED] and [redis.Utilities.isValidDeploymentStatus]
    of the redis manager, which is not in this source tree. *)
Record RedisEnv : Type := mkRedisEnv {
  DOWNLOADED : string;
  DEPLOYMENT_FAILED : string;
  DEPLOYMENT_SUCCEEDED : string;
  isValidDeploymentStatus : jsval -> bool
}.

(** [req.body.k] *)
Definition body_get (body : object) (k : string) : jsval := get body k.

(** [reportStatusDownload] (lines 313-327).  [body] is [req.body]
    ([None] for [undefined]), [redis] the outcome of each call. *)
Definition reportStatusDownload (renv : RedisEnv) (body : option object)
    (redis : redis_call -> settled unit) : list event :=
  match body with
  | None => [Throw TypeError]   (* [req.body.deploymentKey] on [undefined] *)
  | Some b =>
      let deploymentKey := or (get b "deploymentKey") (get b "deployment_key") in
      if negb (truthy deploymentKey) || negb (truthy (get b "label")) then
        [Malformed MissingDownloadFields]
      else
        let c := IncrementLabelStatusCount deploymentKey (get b "label") (JStr (DOWNLOADED renv)) in
        Call c :: match redis c with
                  | Resolved _ => [SendStatus 200]
                  | Rejected e => [UnknownError e]
                  end
  end.

(** [reportStatusDeploy] (lines 243-311).  [metricsSdk] is
    [semver.valid(sdkVersion) && semver.gte(sdkVersion, METRICS_BREAKING_VERSION)]
    for the request's SDK version header; [currentLabel] the outcome of
    [getCurrentActiveLabel]. *)
Definition reportStatusDeploy (renv : RedisEnv) (metricsSdk : bool) (body : option object)
    (redis : redis_call -> settled unit) (currentLabel : settled jsval) : list event :=
  match body with
  | None => [Throw TypeError]
  | Some b =>
      let deploymentKey := or (get b "deploymentKey") (get b "deployment_key") in
      let appVersion := or (get b "appVersion") (get b "app_version") in
      let previousDeploymentKey :=
        or (or (get b "previousDeploymentKey") (get b "previous_deployment_key")) deploymentKey in
      let previousLabelOrAppVersion :=
        or (get b "previousLabelOrAppVersion") (get b "previous_label_or_app_version") in
      let clientUniqueId := or (get b "clientUniqueId") (get b "client_unique_id") in
      let label := get b "label" in
      let status := get b "status" in
      if negb (truthy deploymentKey) || negb (truthy appVersion) then [Malformed MissingAppVersionOrKey]
      else if truthy label && negb (truthy status) then [Malformed MissingStatus]
      else if truthy label && negb (isValidDeploymentStatus renv status) then [Malformed (InvalidStatus status)]
      else if metricsSdk then
        let c :=
          if truthy label && Acquisition.strict_eq status (JStr (DEPLOYMENT_FAILED renv))
          then IncrementLabelStatusCount deploymentKey label status
          else RecordUpdate deploymentKey (or label appVersion) previousDeploymentKey previousLabelOrAppVersion in
        Call c ::
          match redis c with
          | Resolved _ =>
              SendStatus 200 ::
                (if truthy clientUniqueId
                 then [Call (RemoveDeploymentKeyClientActiveLabel previousDeploymentKey clientUniqueId)]
                 else [])
          | Rejected e => [UnknownError e]
          end
      else if negb (truthy clientUniqueId) then [Malformed MissingClientUniqueId]
      else
        Call (GetCurrentActiveLabel deploymentKey clientUniqueId) ::
          match currentLabel with
          | Rejected e => [UnknownError e]
          | Resolved currentVersionLabel =>
              if truthy label && negb (Acquisition.strict_eq label currentVersionLabel) then
                let inc := IncrementLabelStatusCount deploymentKey label status in
                Call inc ::
                  match redis inc with
                  | Rejected e => [UnknownError e]
                  | Resolved _ =>
                      if Acquisition.strict_eq status (JStr (DEPLOYMENT_SUCCEEDED renv)) then
                        let u := UpdateActiveAppForClient deploymentKey clientUniqueId label currentVersionLabel in
                        Call u :: match redis u with
                                  | Rejected e => [UnknownError e]
                                  | Resolved _ => [SendStatus 200]
                                  end
                      else [SendStatus 200]
                  end
              else if negb (truthy label) && negb (Acquisition.strict_eq appVersion currentVersionLabel) then
                let u := UpdateActiveAppForClient deploymentKey clientUniqueId appVersion appVersion in
                Call u :: match redis u with
                          | Rejected e => [UnknownError e]
                          | Resolved _ => [SendStatus 200]
                          end
              else [SendStatus 200]
          end
  end.

End Report.

(* ===================================================================== *)
(** ** The normalization and the echo as the spec words them              *)
(* ===================================================================== *)

Module VersionSpec.
Import Version.

(** [\d*] *)
Fixpoint all_digits (s : string) : bool :=
  match s with
  | EmptyString => true
  | String c r => is_digit c && all_digits r
  end.

(** A non-empty run of digits. *)
Definition digits (s : string) : Prop := s <> "" /\ all_digits s = true.

(** "a bare integer string like "2" becomes "2.0.0"; a two-component
    version like "2.0" or "2.0-beta" becomes "2.0.0" or "2.0.0-beta" (the
    ".0" is inserted before any pre-release/build tag)".  A tag is a [+]
    or [-] followed by a one-line suffix. *)
Inductive spec_normalized_version : string -> string -> Prop :=
| snv_bare (d : string) :
    digits d -> spec_normalized_version d (d +:+ ".0.0")
| snv_two (a b : string) :
    digits a -> digits b ->
    spec_normalized_version (a +:+ "." +:+ b) (a +:+ "." +:+ b +:+ ".0")
| snv_tagged (a b : string) (c : ascii) (t : string) :
    digits a -> digits b -> is_tag_start c = true -> dot_star_end t = true ->
    spec_normalized_version (a +:+ "." +:+ b +:+ String c t)
                            (a +:+ "." +:+ b +:+ ".0" +:+ String c t).

(** "the response echoes the client's original un-normalized string in
    both originalPackage and rolloutPackage". *)
Definition echo_spec (u : UpdateCheckCacheResponse.t) (original : string) : UpdateCheckCacheResponse.t :=
  UpdateCheckCacheResponse.mk
    (UpdateCheckResponse.set_appVersion (UpdateCheckCacheResponse.originalPackage u) (JStr original))
    ((fun p => UpdateCheckResponse.set_appVersion p (JStr original)) <$> UpdateCheckCacheResponse.rolloutPackage u)
    (UpdateCheckCacheResponse.rollout u).

(** The character after a run of digits, if any, is not a digit. *)
Definition starts_non_digit (s : string) : Prop :=
  match s with EmptyString => True | String c _ => is_digit c = false end.

End VersionSpec.

(* ===================================================================== *)
(** ** Concrete collaborators for the examples                            *)
(* ===================================================================== *)

Module Samples.

(** A resolver that offers [v1] to everyone and [v2] to half of the
    clients, echoing the request's version; validators that only ask for
    non-empty fields; a length-based hash. *)
Definition sample_env : Env :=
  mkEnv
    (fun _ r =>
       UpdateCheckCacheResponse.mk
         (UpdateCheckResponse.mk JNull JNull false false (UpdateCheckRequest.appVersion r)
            (JStr "h1") (JStr "v1") None)
         (Some (UpdateCheckResponse.mk JNull JNull true false (UpdateCheckRequest.appVersion r)
            (JStr "h2") (JStr "v2") None))
         (Some 50))
    (fun r => truthy (UpdateCheckRequest.deploymentKey r) && truthy (UpdateCheckRequest.appVersion r))
    truthy truthy
    (fun k => "hash:" +:+ k)
    (fun s => Z.of_nat (String.length s)).

(** [GET /updateCheck?deploymentKey=k1&appVersion=2&clientUniqueId=c1] *)
Definition get_request (appVersion : string) : Request.t :=
  Request.mk "GET" "/updateCheck" "/updateCheck"
    [("deploymentKey", JStr "k1"); ("appVersion", JStr appVersion); ("clientUniqueId", JStr "c1")] None.

End Samples.

(** Two accounts, [a] (id 0) and [b] (id 1), and one app (id 2) added by
    [a], built through the operations from the empty store. *)
Module StorageSamples.
Import Storage.

Definition account_a : Account := mkAccount "a@example.com" "a" 0.
Definition account_b : Account := mkAccount "b@example.com" "b" 0.

Definition setup : M N :=
  a <- addAccount account_a ;;
  _ <- addAccount account_b ;;
  addApp a "app".

Definition store_with_app : Store := snd (setup empty_store).

Definition package (hash : string) : Package.t :=
  Package.mk "1.0.0" ("https://blob/" +:+ hash) "" false false None "" hash None None 1 0.

(** The app with one deployment (id 3, key [key1]) holding one package. *)
Definition with_deployment : M (list Package.t) :=
  d <- addDeployment 0 2 "Production" "key1" ;;
  commit_all 0 2 d [package "p1"].

Definition store_with_deployment : Store := snd (with_deployment store_with_app).

End StorageSamples.

(* ===================================================================== *)
(** * Properties                                                          *)
(* ===================================================================== *)

(* --------------------------------------------------------------------- *)
(** ** Rollout selection                                                  *)
(* --------------------------------------------------------------------- *)

Lemma rollout_bucket_range (hash : string -> Z) (clientId releaseTag : string) :
  0 <= RolloutSelector.bucket hash clientId releaseTag < 100.
Proof. unfold RolloutSelector.bucket. apply Z.mod_pos_bound. lia. Qed.

(** C1: the rollout decision is a function of the client id, the
    percentage and the release identifier only (a bucket in [0,100) of
    their hash, compared with the percentage); it is monotonic in the
    percentage, and an absent percentage always selects. *)
Theorem rollout_selection_monotone (hash : string -> Z) (clientId releaseTag : string) (p1 p2 : Z) :
  p1 <= p2 ->
  (RolloutSelector.isSelectedForRollout hash clientId (Some p1) releaseTag = true ->
   RolloutSelector.isSelectedForRollout hash clientId (Some p2) releaseTag = true) /\
  RolloutSelector.isSelectedForRollout hash clientId None releaseTag = true /\
  (RolloutSelector.isSelectedForRollout hash clientId (Some p1) releaseTag = true <->
   RolloutSelector.bucket hash clientId releaseTag < p1) /\
  0 <= RolloutSelector.bucket hash clientId releaseTag < 100.
Proof.
  intros Hle. unfold RolloutSelector.isSelectedForRollout.
  pose proof (rollout_bucket_range hash clientId releaseTag).
  split; [|split; [reflexivity|split; [apply Z.ltb_lt|assumption]]].
  rewrite !Z.ltb_lt. lia.
Qed.

Lemma rollout_selection_monotone_witness :
  (30 <= 70) /\
  RolloutSelector.isSelectedForRollout (fun s => Z.of_nat (String.length s)) "c1" (Some 70) "v2" = true.
Proof.
  split; [lia|].
  apply (proj1 (rollout_selection_monotone (fun s => Z.of_nat (String.length s)) "c1" "v2" 30 70 ltac:(lia))).
  vm_compute. reflexivity.
Defined.

(* --------------------------------------------------------------------- *)
(** ** Label precedence                                                   *)
(* --------------------------------------------------------------------- *)

(** C10: a non-empty string [label] is the label forwarded to the
    resolver whatever [previousLabel]/[previous_label] hold; those are
    used when [label] is absent or empty. *)
Theorem request_label_prefers_label (req : Request.t) :
  (forall l, get (Acquisition.source_of req) "label" = JStr l -> l <> "" ->
     Acquisition.request_label req = l) /\
  (forall p, (get (Acquisition.source_of req) "label" = JUndefined \/
              get (Acquisition.source_of req) "label" = JStr "") ->
     get (Acquisition.source_of req) "previousLabel" = JStr p -> p <> "" ->
     Acquisition.request_label req = p) /\
  (forall p, (get (Acquisition.source_of req) "label" = JUndefined \/
              get (Acquisition.source_of req) "label" = JStr "") ->
     (get (Acquisition.source_of req) "previousLabel" = JUndefined \/
      get (Acquisition.source_of req) "previousLabel" = JStr "") ->
     get (Acquisition.source_of req) "previous_label" = JStr p -> p <> "" ->
     Acquisition.request_label req = p).
Proof.
  unfold Acquisition.request_label.
  set (src := Acquisition.source_of req).
  split; [|split].
  - intros l Hl Hne.
    assert (E : String.eqb l "" = false) by (apply String.eqb_neq; exact Hne).
    rewrite Hl. unfold or, Version.nonempty. repeat (simpl; rewrite E). reflexivity.
  - intros p Hl Hp Hne.
    assert (E : String.eqb p "" = false) by (apply String.eqb_neq; exact Hne).
    destruct Hl as [Hl|Hl]; rewrite Hl, Hp; unfold or, Version.nonempty; 
      repeat (simpl; rewrite E); reflexivity.
  - intros p Hl Hp Hq Hne.
    assert (E : String.eqb p "" = false) by (apply String.eqb_neq; exact Hne).
    destruct Hl as [Hl|Hl]; destruct Hp as [Hp|Hp]; rewrite Hl, Hp, Hq;
      unfold or, Version.nonempty; repeat (simpl; rewrite E); reflexivity.
Qed.

Lemma request_label_prefers_label_witness :
  Acquisition.request_label
    (Request.mk "POST" "/updateCheck" "/updateCheck" []
       (Some [("previousLabel", JStr "v1"); ("label", JStr "v2")])) = "v2".
Proof.
  apply (proj1 (request_label_prefers_label _)).
  - reflexivity.
  - discriminate.
Defined.

(* --------------------------------------------------------------------- *)
(** ** Cache keys                                                         *)
(* --------------------------------------------------------------------- *)

Lemma get_delete_keys (ks : list string) (o : object) (k : string) :
  existsb (String.eqb k) ks = false -> get (delete_keys ks o) k = get o k.
Proof.
  intros Hk. induction o as [|[k' v] o IH]; [reflexivity|].
  simpl. destruct (existsb (String.eqb k') ks) eqn:E; simpl.
  - rewrite IH. destruct (String.eqb k k') eqn:Ekk; [|reflexivity].
    apply String.eqb_eq in Ekk. subst k'. congruence.
  - rewrite IH. reflexivity.
Qed.

Lemma field2_sanitized (o : object) (a b : string) :
  existsb (String.eqb a) Acquisition.client_id_fields = false ->
  existsb (String.eqb b) Acquisition.client_id_fields = false ->
  Acquisition.field2 (Acquisition.sanitizeClientQuery o) a b = Acquisition.field2 o a b.
Proof.
  intros Ha Hb. unfold Acquisition.field2, Acquisition.sanitizeClientQuery.
  rewrite !get_delete_keys by assumption. reflexivity.
Qed.

(** C3: the cache entry of an update check is the pair of the
    deployment-key hash and the request path followed by the request's
    fields without [clientUniqueId]/[client_unique_id]; two requests with
    the same method and path whose fields agree once those two are
    removed get the same entry. *)
Theorem cache_key_ignores_client_id (env : Env) (r1 r2 : Request.t) :
  Request.method r1 = Request.method r2 ->
  Request.path r1 = Request.path r2 ->
  Request.url_pathname r1 = Request.url_pathname r2 ->
  Acquisition.sanitizeClientQuery (Acquisition.source_of r1) =
    Acquisition.sanitizeClientQuery (Acquisition.source_of r2) ->
  Acquisition.cache_key env r1 = Acquisition.cache_key env r2 /\
  Acquisition.cache_key env r1 =
    (getDeploymentKeyHash env
       (to_string (Acquisition.field2 (Acquisition.source_of r1) "deploymentKey" "deployment_key")),
     Acquisition.with_query
       (if String.eqb (Request.method r1) "POST" then Request.path r1 else Request.url_pathname r1)
       (Acquisition.stringify (Acquisition.sanitizeClientQuery (Acquisition.source_of r1)))).
Proof.
  intros Hm Hp Hu Hs.
  assert (Hdk : Acquisition.field2 (Acquisition.source_of r1) "deploymentKey" "deployment_key" =
                Acquisition.field2 (Acquisition.source_of r2) "deploymentKey" "deployment_key").
  { rewrite <- (field2_sanitized (Acquisition.source_of r1)) by reflexivity.
    rewrite <- (field2_sanitized (Acquisition.source_of r2)) by reflexivity.
    rewrite Hs. reflexivity. }
  unfold Acquisition.cache_key, Acquisition.getCacheKey, Acquisition.getUrlKey.
  unfold Acquisition.source_of in *.
  rewrite Hm, Hp, Hu in *.
  destruct (String.eqb (Request.method r2) "POST"); rewrite Hdk, Hs; split; reflexivity.
Qed.

Lemma cache_key_ignores_client_id_witness :
  let r1 := Request.mk "GET" "/updateCheck" "/updateCheck"
              [("deploymentKey", JStr "k1"); ("clientUniqueId", JStr "c1"); ("appVersion", JStr "1.0.0")] None in
  let r2 := Request.mk "GET" "/updateCheck" "/updateCheck"
              [("deploymentKey", JStr "k1"); ("appVersion", JStr "1.0.0"); ("client_unique_id", JStr "c2")] None in
  Acquisition.cache_key Samples.sample_env r1 = Acquisition.cache_key Samples.sample_env r2.
Proof.
  intros r1 r2.
  apply (proj1 (cache_key_ignores_client_id Samples.sample_env r1 r2 eq_refl eq_refl eq_refl ltac:(vm_compute; reflexivity))).
Defined.

(* --------------------------------------------------------------------- *)
(** ** App-version normalization                                          *)
(* --------------------------------------------------------------------- *)

Section Normalization.
Import Version VersionSpec.

Lemma append_cons (c : ascii) (s t : string) : String c s +:+ t = String c (s +:+ t).
Proof. reflexivity. Qed.

Lemma append_nil_l (s : string) : "" +:+ s = s.
Proof. reflexivity. Qed.

Lemma append_assoc' (x y z : string) : (x +:+ y) +:+ z = x +:+ (y +:+ z).
Proof. induction x as [|c x IH]; [reflexivity|]. rewrite !append_cons, IH. reflexivity. Qed.

Lemma tag_start_not_digit (c : ascii) : is_tag_start c = true -> is_digit c = false.
Proof.
  unfold is_tag_start, is_digit. intros H.
  apply orb_true_iff in H as [H|H]; apply Nat.eqb_eq in H; rewrite H; reflexivity.
Qed.

Lemma span_digits_app (d s : string) :
  all_digits d = true -> starts_non_digit s -> span_digits (d +:+ s) = (d, s).
Proof.
  intros Hd Hs. induction d as [|c d IH].
  - rewrite append_nil_l. destruct s as [|c r]; [reflexivity|].
    simpl in Hs. simpl. rewrite Hs. reflexivity.
  - simpl in Hd. apply andb_true_iff in Hd as [Hc Hd].
    rewrite append_cons. simpl. rewrite Hc, (IH Hd). reflexivity.
Qed.

Lemma search_tag_digits (d s : string) :
  all_digits d = true -> search_tag (d +:+ s) = Nat.add (String.length d) <$> search_tag s.
Proof.
  intros Hd. induction d as [|c d IH].
  - rewrite append_nil_l. simpl. destruct (search_tag s); reflexivity.
  - simpl in Hd. apply andb_true_iff in Hd as [Hc Hd].
    rewrite append_cons. simpl.
    assert (Ht : is_tag_start c = false).
    { destruct (is_tag_start c) eqn:E; [|reflexivity].
      apply tag_start_not_digit in E. congruence. }
    rewrite Ht, (IH Hd). destruct (search_tag s); reflexivity.
Qed.

Lemma length_append (x y : string) : String.length (x +:+ y) = (String.length x + String.length y)%nat.
Proof. induction x as [|c x IH]; [reflexivity|]. rewrite append_cons. simpl. rewrite IH. reflexivity. Qed.

Lemma substring_whole (y : string) : substring 0 (String.length y) y = y.
Proof. induction y as [|c y IH]; [reflexivity|]. simpl. rewrite IH. reflexivity. Qed.

Lemma slice_to_app (x y : string) : slice_to (x +:+ y) (String.length x) = x.
Proof.
  unfold slice_to. induction x as [|c x IH].
  - destruct y; reflexivity.
  - rewrite append_cons. simpl. rewrite IH. reflexivity.
Qed.

Lemma slice_from_app (x y : string) : slice_from (x +:+ y) (String.length x) = y.
Proof.
  unfold slice_from. rewrite length_append.
  replace (String.length x + String.length y - String.length x)%nat with (String.length y) by lia.
  induction x as [|c x IH].
  - apply substring_whole.
  - rewrite append_cons. exact IH.
Qed.

Lemma digits_nonempty (s : string) : digits s -> nonempty s = true.
Proof.
  intros [Hne _]. unfold nonempty. destruct (String.eqb s "") eqn:E; [|reflexivity].
  apply String.eqb_eq in E. contradiction.
Qed.

Lemma append_nil_r' (s : string) : s +:+ "" = s.
Proof. induction s as [|c s IH]; [reflexivity|]. rewrite append_cons, IH. reflexivity. Qed.

Lemma plain_of_digits (d : string) : digits d -> is_plain_integer_number d = true.
Proof.
  intros Hd. unfold is_plain_integer_number.
  rewrite <- (append_nil_r' d) at 1.
  rewrite span_digits_app by (exact (proj2 Hd) || exact I).
  rewrite (digits_nonempty d Hd). reflexivity.
Qed.

Lemma plain_of_dot (a r : string) : all_digits a = true ->
  is_plain_integer_number (a +:+ "." +:+ r) = false.
Proof.
  intros Ha. unfold is_plain_integer_number.
  rewrite span_digits_app by (exact Ha || exact eq_refl).
  destruct (nonempty a); reflexivity.
Qed.

Lemma missing_of_dot (a b r : string) :
  all_digits a = true -> all_digits b = true -> starts_non_digit r ->
  is_missing_patch_version (a +:+ "." +:+ b +:+ r) = nonempty a && nonempty b && opt_tag_end r.
Proof.
  intros Ha Hb Hr. unfold is_missing_patch_version.
  rewrite span_digits_app by (exact Ha || exact eq_refl).
  change ("." +:+ b +:+ r) with (String "." (b +:+ r)).
  cbv iota beta. rewrite span_digits_app by assumption. reflexivity.
Qed.

Lemma normalize_bare (d : string) : digits d ->
  Acquisition.normalize_app_version (JStr d) =
  Resolved (Acquisition.mkNormalization (JStr (d +:+ ".0.0")) (Some (JStr d)) true false).
Proof.
  intros Hd. unfold Acquisition.normalize_app_version. simpl to_string.
  rewrite (plain_of_digits d Hd). simpl to_string.
  change ".0.0" with ("." +:+ "0" +:+ ".0").
  rewrite missing_of_dot by (exact (proj2 Hd) || exact eq_refl).
  rewrite (digits_nonempty d Hd). reflexivity.
Qed.

Lemma missing_two (a b : string) : digits a -> digits b ->
  is_missing_patch_version (a +:+ "." +:+ b) = true.
Proof.
  intros Ha Hb. rewrite <- (append_nil_r' b).
  rewrite missing_of_dot by (exact (proj2 Ha) || exact (proj2 Hb) || exact I).
  rewrite (digits_nonempty a Ha), (digits_nonempty b Hb). reflexivity.
Qed.

Lemma search_tag_dot (a b r : string) : all_digits a = true -> all_digits b = true ->
  search_tag (a +:+ "." +:+ b +:+ r) =
  Nat.add (String.length a + 1 + String.length b)%nat <$> search_tag r.
Proof.
  intros Ha Hb. rewrite search_tag_digits by exact Ha.
  change ("." +:+ b +:+ r) with (String "." (b +:+ r)). simpl search_tag.
  rewrite search_tag_digits by exact Hb.
  destruct (search_tag r); simpl; [f_equal; lia|reflexivity].
Qed.

Lemma normalize_two (a b : string) : digits a -> digits b ->
  Acquisition.normalize_app_version (JStr (a +:+ "." +:+ b)) =
  Resolved (Acquisition.mkNormalization (JStr (a +:+ "." +:+ b +:+ ".0"))
              (Some (JStr (a +:+ "." +:+ b))) false true).
Proof.
  intros Ha Hb. unfold Acquisition.normalize_app_version. simpl to_string.
  rewrite (plain_of_dot a b (proj2 Ha)). cbv iota beta. simpl to_string.
  rewrite (missing_two a b Ha Hb).
  assert (Hs : search_tag (a +:+ "." +:+ b) = None).
  { rewrite <- (append_nil_r' b). rewrite search_tag_dot by (exact (proj2 Ha) || exact (proj2 Hb)).
    reflexivity. }
  rewrite Hs, !append_assoc'. reflexivity.
Qed.

Lemma normalize_tagged (a b : string) (c : ascii) (t : string) :
  digits a -> digits b -> is_tag_start c = true -> dot_star_end t = true ->
  Acquisition.normalize_app_version (JStr (a +:+ "." +:+ b +:+ String c t)) =
  Resolved (Acquisition.mkNormalization (JStr (a +:+ "." +:+ b +:+ ".0" +:+ String c t))
              (Some (JStr (a +:+ "." +:+ b +:+ String c t))) false true).
Proof.
  intros Ha Hb Hc Ht. unfold Acquisition.normalize_app_version. simpl to_string.
  rewrite (plain_of_dot a _ (proj2 Ha)). cbv iota beta. simpl to_string.
  assert (Hnd : starts_non_digit (String c t)) by exact (tag_start_not_digit c Hc).
  assert (Hm : is_missing_patch_version (a +:+ "." +:+ b +:+ String c t) = true).
  { rewrite missing_of_dot by (exact (proj2 Ha) || exact (proj2 Hb) || exact Hnd).
    rewrite (digits_nonempty a Ha), (digits_nonempty b Hb). simpl. rewrite Hc, Ht. reflexivity. }
  rewrite Hm.
  rewrite search_tag_dot by (exact (proj2 Ha) || exact (proj2 Hb)).
  simpl search_tag. rewrite Hc. simpl fmap.
  replace (String.length a + 1 + String.length b + 0)%nat
    with (String.length (a +:+ "." +:+ b)) by (rewrite !length_append; simpl; lia).
  rewrite <- !(append_assoc' a), <- !(append_assoc' (a +:+ ".")).
  rewrite slice_to_app, slice_from_app, !append_assoc'. reflexivity.
Qed.

End Normalization.

Lemma normalize_spec (v v' : string) : VersionSpec.spec_normalized_version v v' ->
  exists plain missing, (missing || plain) = true /\
  Acquisition.normalize_app_version (JStr v) =
  Resolved (Acquisition.mkNormalization (JStr v') (Some (JStr v)) plain missing).
Proof.
  intros H. destruct H as [d Hd|a b Ha Hb|a b c t Ha Hb Hc Ht].
  - exists true, false. split; [reflexivity|]. apply normalize_bare; assumption.
  - exists false, true. split; [reflexivity|]. apply normalize_two; assumption.
  - exists false, true. split; [reflexivity|]. apply normalize_tagged; assumption.
Qed.

(** C2: a bare integer, a two-component version and a two-component
    version with a tag reach the resolver as [d.0.0], [a.b.0] and
    [a.b.0<tag>]; when the resolved original package carries that
    normalized version, the response carries the client's own string in
    the original and the rollout package. *)
Theorem createResponseUsingStorage_normalizes_app_version
    (env : Env) (req : Request.t) (history : jsval -> settled (list Package.t))
    (r : UpdateCheckRequest.t) (v v' : string) (ph : list Package.t) :
  Acquisition.update_request req = Resolved r ->
  UpdateCheckRequest.appVersion r = JStr v ->
  VersionSpec.spec_normalized_version v v' ->
  isValidUpdateCheckRequest env (Acquisition.with_app_version r (JStr v')) = true ->
  history (UpdateCheckRequest.deploymentKey r) = Resolved ph ->
  Acquisition.createResponseUsingStorage env req history =
    ([], Resolved (Some (CacheableResponse.mk 200
      (let u := getUpdatePackageInfo env ph (Acquisition.with_app_version r (JStr v')) in
       if Acquisition.strict_eq
            (UpdateCheckResponse.appVersion (UpdateCheckCacheResponse.originalPackage u)) (JStr v')
       then VersionSpec.echo_spec u v else u)))).
Proof.
  intros Hr Hv Hs Hvalid Hh.
  destruct (normalize_spec v v' Hs) as (plain & missing & Hpm & Hn).
  unfold Acquisition.createResponseUsingStorage. rewrite Hr, Hv, Hn.
  cbv iota beta. simpl Acquisition.normalized. rewrite Hvalid. simpl UpdateCheckRequest.deploymentKey.
  rewrite Hh. unfold Acquisition.echo_original_app_version.
  cbn [Acquisition.isMissingPatchVersion Acquisition.isPlainIntegerNumber
       Acquisition.normalized Acquisition.originalAppVersion].
  rewrite Hpm. cbn [andb].
  destruct (Acquisition.strict_eq _ _); reflexivity.
Qed.

Lemma createResponseUsingStorage_normalizes_app_version_witness :
  Acquisition.createResponseUsingStorage Samples.sample_env (Samples.get_request "2")
    (fun _ => Resolved []) =
  ([], Resolved (Some (CacheableResponse.mk 200
     (UpdateCheckCacheResponse.mk
        (UpdateCheckResponse.mk JNull JNull false false (JStr "2") (JStr "h1") (JStr "v1") None)
        (Some (UpdateCheckResponse.mk JNull JNull true false (JStr "2") (JStr "h2") (JStr "v2") None))
        (Some 50))))).
Proof.
  assert (H1 : Acquisition.update_request (Samples.get_request "2") =
    Resolved (UpdateCheckRequest.mk (JStr "k1") (JStr "2") (JStr "") (JStr "") "")) by (vm_compute; reflexivity).
  assert (H3 : VersionSpec.spec_normalized_version "2" ("2" +:+ ".0.0")).
  { apply VersionSpec.snv_bare. split; [discriminate | reflexivity]. }
  assert (H4 : isValidUpdateCheckRequest Samples.sample_env
    (Acquisition.with_app_version (UpdateCheckRequest.mk (JStr "k1") (JStr "2") (JStr "") (JStr "") "")
       (JStr ("2" +:+ ".0.0"))) = true) by (vm_compute; reflexivity).
  rewrite (createResponseUsingStorage_normalizes_app_version Samples.sample_env
    (Samples.get_request "2") (fun _ => Resolved [])
    (UpdateCheckRequest.mk (JStr "k1") (JStr "2") (JStr "") (JStr "") "")
    "2" ("2" +:+ ".0.0") [] H1 eq_refl H3 H4 eq_refl).
  vm_compute. reflexivity.
Defined.

(** On a cache-read failure the handler runs the miss path; when a response
    was computed but writing it back to the cache then fails, the handler's
    final [.catch] receives the write error, and the stored read error is
    never rethrown. *)
Lemma updateCheck_read_error_replaced (env : Env) (newApi : bool) (req : Request.t)
    (e e' : error) (history : jsval -> settled (list Package.t))
    (ev : list Acquisition.event) (resp : CacheableResponse.t) :
  Acquisition.createResponseUsingStorage env req history = (ev, Resolved (Some resp)) ->
  exists sent write,
    Acquisition.updateCheck env newApi req (Rejected e) history (Rejected e') =
    ev ++ [sent; write; Acquisition.EErrorHandler e'].
Proof.
  intros Hc. unfold Acquisition.updateCheck.
  destruct (Acquisition.cache_key env req) as [key url].
  rewrite Hc. cbv zeta iota beta.
  destruct (Acquisition.choose_update_info _ _ _) as [ui resp'].
  rewrite bool_decide_false by (intros [? H]; discriminate H).
  eexists _, _. reflexivity.
Qed.

(** Claim C4: after a failed cache read, the request is served from
    storage and the response is sent; but when the cache write that follows
    also fails, the error handler receives only the write error: the stored
    cache-read error is never raised.  Evaluated on a GET update check with
    the read rejected with [RedisError "read"] and the write rejected with
    [RedisError "write"]. *)
Theorem updateCheck_swallows_cache_read_error :
  let tr := Acquisition.updateCheck Samples.sample_env false (Samples.get_request "1.0.0")
              (Rejected (RedisError "read")) (fun _ => Resolved [])
              (Rejected (RedisError "write")) in
  (exists st fc ui, In (Acquisition.ESend st false fc ui) tr) /\
  last tr = Some (Acquisition.EErrorHandler (RedisError "write")) /\
  ~ In (Acquisition.EErrorHandler (RedisError "read")) tr.
Proof.
  vm_compute. split; [|split].
  - eexists _, _, _. left. reflexivity.
  - reflexivity.
  - intros [H|[H|[H|[]]]]; discriminate H.
Qed.

(* ===================================================================== *)
(** ** Transferring an app                                                *)
(* ===================================================================== *)

(** Claim C5, counterexample: the collaborator count is not unchanged in
    general.  Account [a] owns the app, account [b] is registered but not
    a collaborator; after the transfer to [b], [b] is Owner, [a] is
    Collaborator and the app has two collaborators instead of one. *)
Lemma transferApp_to_new_collaborator_grows_count :
  let s := StorageSamples.store_with_app in
  let r := Storage.transferApp 0 2 "b@example.com" s in
  r.1 = Storage.Ok tt /\
  (size ∘ Storage.collaborators) <$> Storage.apps s !! 2%N = Some 1%nat /\
  (size ∘ Storage.collaborators) <$> Storage.apps r.2 !! 2%N = Some 2%nat /\
  Storage.permission <$> (Storage.apps r.2 !! 2%N ≫= fun app =>
                            Storage.collaborators app !! "a@example.com") = Some Storage.Collaborator /\
  Storage.permission <$> (Storage.apps r.2 !! 2%N ≫= fun app =>
                            Storage.collaborators app !! "b@example.com") = Some Storage.Owner.
Proof. vm_compute. repeat split. Qed.

Section Transfer.
Import Storage.

Lemma demote_owners_lookup (m : gmap string CollaboratorProperties) (k : string) :
  demote_owners m !! k = demote <$> m !! k.
Proof.
  unfold demote_owners. rewrite lookup_fmap.
  destruct (m !! k) as [[[|] i]|]; reflexivity.
Qed.

(** Claim C5, amended: after a successful [transferApp] of the app from
    its owner [a] to a registered account [b] with another email, [b] is
    the app's only Owner, [a] is Collaborator, every other collaborator is
    kept (an Owner demoted to Collaborator, a Collaborator unchanged), and
    the collaborator count is unchanged when [b] already was a
    collaborator and grows by one otherwise. *)
Theorem transferApp_moves_ownership (aid appId b : N) (e : string) (s s' : Store)
    (app : App) (accA accB : Account) :
  transferApp aid appId e s = (Ok tt, s') ->
  apps s !! appId = Some app ->
  accounts s !! aid = Some accA ->
  emailToAccountId s !! email_key e = Some b ->
  accounts s !! b = Some accB ->
  email accA <> email accB ->
  exists app',
    apps s' !! appId = Some app' /\
    collaborators app' !! email accB = Some (mkCollaborator Owner b) /\
    (forall k c, collaborators app' !! k = Some c -> permission c = Owner -> k = email accB) /\
    permission <$> collaborators app' !! email accA = Some Collaborator /\
    (forall k, k <> email accB -> collaborators app' !! k = demote <$> collaborators app !! k) /\
    (forall k c, k <> email accB -> collaborators app !! k = Some c ->
       permission c = Collaborator -> collaborators app' !! k = Some c) /\
    size (collaborators app') =
      match collaborators app !! email accB with
      | Some _ => size (collaborators app)
      | None => S (size (collaborators app))
      end.
Proof.
  intros Hrun Happ HA He Hb Hne.
  cbv [transferApp app_in_scope bind gets some_or ret fail id] in Hrun.
  rewrite HA, Happ in Hrun. cbn in Hrun.
  destruct (collaborators app !! email accA) as [cA|] eqn:HcA; [|discriminate Hrun].
  cbn in Hrun. rewrite He, Hb in Hrun. cbn in Hrun.
  assert (Hcase : exists app', apps s' !! appId = Some app' /\
    collaborators app' = <[email accB := mkCollaborator Owner b]> (demote_owners (collaborators app))).
  { destruct (collaborators app !! email accB) as [[[|] x]|] eqn:HcB;
      [discriminate Hrun| |]; unfold set_apps in Hrun; injection Hrun as <-;
      eexists; (split; [apply lookup_insert_eq|reflexivity]). }
  destruct Hcase as (app' & Happ' & Hc').
  exists app'. rewrite Hc'. split; [exact Happ'|]. split; [apply lookup_insert_eq|].
  split; [|split; [|split; [|split]]].
  - intros k c Hk Hp. destruct (decide (k = email accB)) as [->|Hk']; [reflexivity|].
    rewrite lookup_insert_ne in Hk by congruence.
    rewrite demote_owners_lookup in Hk.
    destruct (collaborators app !! k); inversion Hk; subst c; discriminate Hp.
  - rewrite lookup_insert_ne by congruence. rewrite demote_owners_lookup, HcA. reflexivity.
  - intros k Hk. rewrite lookup_insert_ne by congruence. apply demote_owners_lookup.
  - intros k c Hk Hkc Hp. rewrite lookup_insert_ne by congruence.
    rewrite demote_owners_lookup, Hkc. destruct c as [p i]. simpl in Hp. subst p. reflexivity.
  - rewrite map_size_insert. unfold demote_owners. rewrite lookup_fmap, map_size_fmap.
    destruct (collaborators app !! email accB); reflexivity.
Qed.

End Transfer.

(* ===================================================================== *)
(** ** Package histories                                                  *)
(* ===================================================================== *)

Section Histories.
Import Storage.

(** Claim C6: [updatePackageHistory] with a null or an empty history
    fails with [Other] and leaves the store, hence every stored package
    history, exactly as it was. *)
Theorem updatePackageHistory_refuses_empty (accountId appId deploymentId : N) (s : Store) :
  updatePackageHistory accountId appId deploymentId None s = (Err Other, s) /\
  updatePackageHistory accountId appId deploymentId (Some []) s = (Err Other, s) /\
  (forall d, deployments (updatePackageHistory accountId appId deploymentId None s).2 !! d =
             deployments s !! d) /\
  (forall d, deployments (updatePackageHistory accountId appId deploymentId (Some []) s).2 !! d =
             deployments s !! d).
Proof. repeat split. Qed.

(** [app_in_scope] only reads the accounts and the apps. *)
Lemma app_in_scope_read (a b : N) (t : Store) :
  app_in_scope a b t =
  ((match accounts t !! a with
    | Some acc =>
        match apps t !! b with
        | Some app => match collaborators app !! email acc with
                      | Some _ => Ok (acc, app) | None => Err NotFound end
        | None => Err NotFound
        end
    | None => Err NotFound
    end), t).
Proof.
  cbv [app_in_scope bind gets some_or ret fail id].
  destruct (accounts t !! a); [|reflexivity].
  destruct (apps t !! b); [|reflexivity].
  destruct (collaborators _ !! _); reflexivity.
Qed.

Lemma deployment_in_scope_read (a b d : N) (t : Store) :
  deployment_in_scope a b d t =
  ((match (app_in_scope a b t).1 with
    | Ok _ =>
        match deployments t !! d with
        | Some dep => if decide (dep_app dep = b) then Ok dep else Err NotFound
        | None => Err NotFound
        end
    | Err c => Err c
    end), t).
Proof.
  cbv [deployment_in_scope app_in_scope bind gets some_or ret fail id fst].
  destruct (accounts t !! a); [|reflexivity].
  destruct (apps t !! b); [|reflexivity].
  destruct (collaborators _ !! _); [|reflexivity].
  destruct (deployments t !! d); [|reflexivity].
  destruct (decide _); reflexivity.
Qed.

(** Committing [ps] to a deployment in scope holding [n] packages returns
    them labelled [v(n+1)], [v(n+2)], ..., and appends them, in order, to
    its history; nothing else of the store changes. *)
Lemma commit_all_appends (a b d : N) (ps : list Package.t) :
  forall (t : Store) (dep : Deployment),
  deployment_in_scope a b d t = (Ok dep, t) ->
  exists t',
    commit_all a b d ps t = (Ok (labelled (List.length (packageHistory dep)) ps), t') /\
    deployments t' !! d = Some (mkDeployment (deployment_name dep) (key dep) (dep_app dep)
                                  (packageHistory dep ++ labelled (List.length (packageHistory dep)) ps)) /\
    accounts t' = accounts t /\ apps t' = apps t /\ deploymentKeys t' = deploymentKeys t.
Proof.
  induction ps as [|p ps IH]; intros t dep Hin.
  - exists t. cbn [commit_all labelled]. rewrite app_nil_r.
    rewrite deployment_in_scope_read in Hin. injection Hin as Hin.
    destruct (app_in_scope a b t).1; [|discriminate Hin].
    destruct (deployments t !! d) as [dep0|] eqn:Hd; [|discriminate Hin].
    destruct (decide _); [|discriminate Hin]. injection Hin as ->.
    destruct dep; repeat split.
  - set (t1 := mkStore (accounts t) (emailToAccountId t) (apps t)
           (<[d := mkDeployment (deployment_name dep) (key dep) (dep_app dep)
                    (packageHistory dep ++ [set_label p (label_of_index (S (List.length (packageHistory dep))))])]>
              (deployments t)) (deploymentKeys t) (nextId t)).
    assert (Hc : commitPackage a b d p t =
                 (Ok (set_label p (label_of_index (S (List.length (packageHistory dep))))), t1)).
    { unfold commitPackage. cbv [bind]. rewrite Hin. reflexivity. }
    pose proof Hin as Hin'.
    rewrite deployment_in_scope_read in Hin'. injection Hin' as Hin'.
    destruct (app_in_scope a b t).1 eqn:Hscope; [|discriminate Hin'].
    destruct (deployments t !! d) as [dep0|] eqn:Hd; [|discriminate Hin'].
    destruct (decide _) as [Happ|]; [|discriminate Hin']. injection Hin' as ->.
    assert (Hin1 : deployment_in_scope a b d t1 =
      (Ok (mkDeployment (deployment_name dep) (key dep) (dep_app dep)
             (packageHistory dep ++ [set_label p (label_of_index (S (List.length (packageHistory dep))))])), t1)).
    { rewrite deployment_in_scope_read.
      assert (Hs1 : (app_in_scope a b t1).1 = (app_in_scope a b t).1)
        by (rewrite !app_in_scope_read; reflexivity).
      rewrite Hs1, Hscope. unfold t1 at 1. cbn [deployments]. rewrite lookup_insert_eq.
      cbn [dep_app]. rewrite decide_True by exact Happ. reflexivity. }
    destruct (IH t1 _ Hin1) as (t' & Hrun & Hd' & Ha & Hp & Hk).
    cbn [packageHistory deployment_name key dep_app] in Hd', Hrun.
    rewrite length_app in Hd', Hrun. cbn [List.length] in Hd', Hrun.
    rewrite Nat.add_1_r in Hd', Hrun.
    exists t'. cbn [commit_all]. cbv [bind]. rewrite Hc, Hrun.
    split; [reflexivity|]. split; [|split; [|split]].
    + rewrite Hd', <- app_assoc. reflexivity.
    + exact Ha.
    + exact Hp.
    + exact Hk.
Qed.

Lemma labelled_lookup (n : nat) (ps : list Package.t) :
  forall i p, ps !! i = Some p -> labelled n ps !! i = Some (set_label p (label_of_index (S (n + i)))).
Proof.
  revert n. induction ps as [|q ps IH]; intros n [|i] p H; try discriminate H.
  - injection H as ->. simpl. rewrite Nat.add_0_r. reflexivity.
  - simpl in H |- *. rewrite (IH (S n) i p H). do 3 f_equal. lia.
Qed.

Lemma length_labelled (n : nat) (ps : list Package.t) : List.length (labelled n ps) = List.length ps.
Proof. revert n. induction ps as [|p ps IH]; intros n; simpl; [reflexivity|]. rewrite IH. reflexivity. Qed.

(** Claim C7: after [addDeployment] succeeds with key [k], its history
    read by [k] is empty (not [NotFound]); after committing [ps] it is
    exactly [ps], in commit order, labelled [v1 ... vn].  In a store whose
    reverse index agrees with its deployments, reading by a key fails with
    [NotFound] exactly when no deployment has that key. *)
Theorem getPackageHistoryFromDeploymentKey_in_commit_order
    (a b d : N) (name k : string) (s s1 : Store) (ps : list Package.t) :
  addDeployment a b name k s = (Ok d, s1) ->
  getPackageHistoryFromDeploymentKey k s1 = (Ok [], s1) /\
  (exists s2, commit_all a b d ps s1 = (Ok (labelled 0 ps), s2) /\
     getPackageHistoryFromDeploymentKey k s2 = (Ok (labelled 0 ps), s2)) /\
  List.length (labelled 0 ps) = List.length ps /\
  (forall i p, ps !! i = Some p -> labelled 0 ps !! i = Some (set_label p (label_of_index (S i)))) /\
  (forall t k', wf t ->
     ((getPackageHistoryFromDeploymentKey k' t).1 = Err NotFound <->
      forall d' dep, deployments t !! d' = Some dep -> key dep <> k')).
Proof.
  intros Hadd.
  assert (Hs1 : (exists pr, (app_in_scope a b s).1 = Ok pr) /\
      s1 = mkStore (accounts s) (emailToAccountId s) (apps s)
             (<[nextId s := mkDeployment name k b []]> (deployments s))
             (<[k := (b, nextId s)]> (deploymentKeys s)) (N.succ (nextId s)) /\ d = nextId s).
  { unfold addDeployment in Hadd. cbv [bind] in Hadd. rewrite app_in_scope_read in Hadd.
    rewrite app_in_scope_read. cbn [fst].
    destruct (accounts s !! a); [|discriminate Hadd].
    destruct (apps s !! b); [|discriminate Hadd].
    destruct (collaborators _ !! _); [|discriminate Hadd].
    cbv [gets id] in Hadd. destruct (deploymentKeys s !! k); [discriminate Hadd|].
    cbv [fresh_id set_deployments ret] in Hadd. cbn in Hadd. injection Hadd as <- <-.
    split; [eexists; reflexivity|split; reflexivity]. }
  destruct Hs1 as ([pr Hscope] & -> & ->).
  set (s1 := mkStore _ _ _ _ _ _).
  assert (Hin : deployment_in_scope a b (nextId s) s1 = (Ok (mkDeployment name k b []), s1)).
  { rewrite deployment_in_scope_read.
    assert (E : (app_in_scope a b s1).1 = (app_in_scope a b s).1)
      by (rewrite !app_in_scope_read; reflexivity).
    rewrite E, Hscope. unfold s1 at 1. cbn [deployments]. rewrite lookup_insert_eq.
    cbn [dep_app]. rewrite decide_True by reflexivity. reflexivity. }
  split; [|split; [|split; [|split]]].
  - cbv [getPackageHistoryFromDeploymentKey bind gets some_or ret id].
    unfold s1 at 1 2. cbn [deploymentKeys deployments].
    rewrite lookup_insert_eq. cbn. rewrite lookup_insert_eq. reflexivity.
  - destruct (commit_all_appends a b (nextId s) ps s1 _ Hin) as (s2 & Hrun & Hd & _ & _ & Hk2).
    exists s2. cbn [packageHistory List.length deployment_name key dep_app app] in Hrun, Hd.
    split; [exact Hrun|].
    cbv [getPackageHistoryFromDeploymentKey bind gets some_or ret id].
    rewrite Hk2. unfold s1 at 1. cbn [deploymentKeys]. rewrite lookup_insert_eq. cbn.
    rewrite Hd. reflexivity.
  - apply length_labelled.
  - intros i p H. apply (labelled_lookup 0 ps i p H).
  - intros t k' [Hw1 Hw2].
    cbv [getPackageHistoryFromDeploymentKey bind gets some_or ret fail id].
    split.
    + intros H d' dep Hd Hkey. subst k'. apply Hw2 in Hd. rewrite Hd in H. cbn in H.
      destruct (Hw1 _ _ _ Hd) as (dep' & Hd' & _ & _). rewrite Hd' in H. discriminate H.
    + intros H. destruct (deploymentKeys t !! k') as [[a' d']|] eqn:E; [|reflexivity].
      destruct (Hw1 _ _ _ E) as (dep & Hd & _ & Hkey). exfalso. exact (H d' dep Hd Hkey).
Qed.

End Histories.

(* ===================================================================== *)
(** ** Removing an app                                                    *)
(* ===================================================================== *)

Section Removal.
Import Storage.

(** Claim C8: after [removeApp] succeeds, looking the app up by id, any of
    its deployments by id, or the history of any of its deployments by
    key fails with [NotFound]; no deployment of the app and no
    reverse-index entry naming it is left, and the reverse index still
    agrees with the deployments. *)
Theorem removeApp_cascades (a appId : N) (s s' : Store) :
  wf s ->
  removeApp a appId s = (Ok tt, s') ->
  (forall a', (getApp a' appId s').1 = Err NotFound) /\
  (forall a' d, (getDeployment a' appId d s').1 = Err NotFound) /\
  (forall d dep, deployments s !! d = Some dep -> dep_app dep = appId ->
     deployments s' !! d = None /\
     (getPackageHistoryFromDeploymentKey (key dep) s').1 = Err NotFound) /\
  (forall d dep, deployments s' !! d = Some dep -> dep_app dep <> appId) /\
  (forall k a' d, deploymentKeys s' !! k = Some (a', d) -> a' <> appId) /\
  wf s'.
Proof.
  intros [Hw1 Hw2] Hrm.
  assert (Hs' : s' = mkStore (accounts s) (emailToAccountId s) (delete appId (apps s))
                   (filter (fun kv => dep_app kv.2 <> appId) (deployments s))
                   (filter (fun kv => kv.2.1 <> appId) (deploymentKeys s)) (nextId s)).
  { unfold removeApp in Hrm. cbv [bind] in Hrm. rewrite app_in_scope_read in Hrm.
    destruct (accounts s !! a); [|discriminate Hrm].
    destruct (apps s !! appId); [|discriminate Hrm].
    destruct (collaborators _ !! _); [|discriminate Hrm].
    cbv [gets id set_apps set_deployments] in Hrm. injection Hrm as <-. reflexivity. }
  subst s'.
  assert (Hscope : forall a', (app_in_scope a' appId
      (mkStore (accounts s) (emailToAccountId s) (delete appId (apps s))
         (filter (fun kv => dep_app kv.2 <> appId) (deployments s))
         (filter (fun kv => kv.2.1 <> appId) (deploymentKeys s)) (nextId s))).1 = Err NotFound).
  { intros a'. rewrite app_in_scope_read. cbn [fst apps accounts].
    rewrite lookup_delete_eq. destruct (accounts s !! a'); reflexivity. }
  split; [|split; [|split; [|split; [|split]]]].
  - intros a'. unfold getApp. cbv [bind]. rewrite app_in_scope_read.
    specialize (Hscope a'). rewrite app_in_scope_read in Hscope. cbn [fst] in Hscope.
    rewrite Hscope. reflexivity.
  - intros a' d. unfold getDeployment. rewrite deployment_in_scope_read. cbn [fst].
    rewrite Hscope. reflexivity.
  - intros d dep Hd Happ. cbn [deployments deploymentKeys]. split.
    + rewrite map_lookup_filter, Hd. cbn.
      rewrite option_guard_False by (cbn; congruence). reflexivity.
    + cbv [getPackageHistoryFromDeploymentKey bind gets some_or ret fail id fst].
      cbn [deploymentKeys]. rewrite map_lookup_filter, (Hw2 _ _ Hd). cbn.
      rewrite option_guard_False by (cbn; congruence). reflexivity.
  - intros d dep Hd. cbn [deployments] in Hd.
    apply map_lookup_filter_Some in Hd as [_ H]. exact H.
  - intros k a' d Hk. cbn [deploymentKeys] in Hk.
    apply map_lookup_filter_Some in Hk as [_ H]. exact H.
  - split; cbn [deployments deploymentKeys].
    + intros k a' d Hk. apply map_lookup_filter_Some in Hk as [Hk Ha]. cbn in Ha.
      destruct (Hw1 _ _ _ Hk) as (dep & Hd & Hdep & Hkey).
      exists dep. split; [|split; assumption].
      apply map_lookup_filter_Some. split; [exact Hd|]. cbn. congruence.
    + intros d dep Hd. apply map_lookup_filter_Some in Hd as [Hd Ha]. cbn in Ha.
      apply map_lookup_filter_Some. split; [apply Hw2, Hd|]. cbn. exact Ha.
Qed.

End Removal.

(* ===================================================================== *)
(** ** Caller objects                                                     *)
(* ===================================================================== *)

Section CallerObjects.
Import InputObjects.

(** One step keeps the table pointing at the storage's copies, keeps a
    caller object where it is and as it is, and never makes it a copy. *)
Lemma step_frame (s : State) (o : op) (l : loc) :
  table_owned s -> l ∈ dom (heap s) -> l ∉ owned s ->
  table_owned (step s o) /\ l ∈ dom (heap (step s o)) /\ (l ∉ owned (step s o)) /\
  heap (step s o) !! l = heap s !! l.
Proof.
  intros Ht Hl Hn.
  assert (Hadd : forall k prop obj, let s' := add_copy k prop obj s in
            table_owned s' /\ l ∈ dom (heap s') /\ (l ∉ owned s') /\ heap s' !! l = heap s !! l).
  { intros k prop obj s'.
    assert (Hf : fresh (dom (heap s)) <> l).
    { intros E. apply (is_fresh (dom (heap s))). rewrite E. exact Hl. }
    unfold s', add_copy. cbn [heap owned table]. split; [|split; [|split]].
    - intros k' l' Hk'. cbn [table] in Hk'. cbn [owned].
      apply lookup_insert_Some in Hk' as [[_ <-]|[_ Hk']]; [set_solver|].
      apply elem_of_union_r. exact (Ht _ _ Hk').
    - rewrite dom_insert. set_solver.
    - set_solver.
    - apply lookup_insert_ne. exact Hf. }
  assert (Hupd : forall k obj, let s' := update_copy k obj s in
            table_owned s' /\ l ∈ dom (heap s') /\ (l ∉ owned s') /\ heap s' !! l = heap s !! l).
  { intros k obj s'. unfold s', update_copy.
    destruct (get obj "id"); try (split; [exact Ht|split; [exact Hl|split; [exact Hn|reflexivity]]]).
    destruct (table s !! table_key k s0) as [sl|] eqn:Hsl;
      [|split; [exact Ht|split; [exact Hl|split; [exact Hn|reflexivity]]]].
    destruct (heap s !! sl) as [stored|] eqn:Hst;
      [|split; [exact Ht|split; [exact Hl|split; [exact Hn|reflexivity]]]].
    assert (Hne : sl <> l) by (intros <-; exact (Hn (Ht _ _ Hsl))).
    cbn [heap owned table]. split; [exact Ht|split; [|split; [exact Hn|]]].
    - rewrite dom_insert. set_solver.
    - apply lookup_insert_ne. exact Hne. }
  destruct o; unfold step;
    (destruct (heap s !! l0) as [obj|];
     [first [apply Hadd | apply Hupd] | split; [exact Ht|split; [exact Hl|split; [exact Hn|reflexivity]]]]).
Qed.

(** Claim C9: whatever sequence of mutating storage operations runs
    ([addAccount], [addAccessKey], [updateAccessKey], [addApp],
    [updateApp], [addDeployment], [updateDeployment], [commitPackage]), a
    caller's object, which is not one of the storage's copies, is left
    exactly as it was. *)
Theorem run_never_mutates_inputs (s : State) (ops : list op) (l : loc) :
  table_owned s -> l ∈ dom (heap s) -> l ∉ owned s ->
  heap (run s ops) !! l = heap s !! l.
Proof.
  unfold run. revert s. induction ops as [|o ops IH]; intros s Ht Hl Hn; [reflexivity|].
  cbn [fold_left]. destruct (step_frame s o l Ht Hl Hn) as (Ht' & Hl' & Hn' & E).
  rewrite (IH _ Ht' Hl' Hn'). exact E.
Qed.

End CallerObjects.

Lemma wf_of_lists (s : Storage.Store) :
  Forall (fun kv => exists dep, Storage.deployments s !! kv.2.2 = Some dep /\
                                Storage.dep_app dep = kv.2.1 /\ Storage.key dep = kv.1)
         (map_to_list (Storage.deploymentKeys s)) ->
  Forall (fun kv => Storage.deploymentKeys s !! Storage.key kv.2 = Some (Storage.dep_app kv.2, kv.1))
         (map_to_list (Storage.deployments s)) ->
  Storage.wf s.
Proof.
  intros H1 H2. split.
  - intros k a d Hk.
    assert (H : map_Forall (fun k ad => exists dep, Storage.deployments s !! ad.2 = Some dep /\
                              Storage.dep_app dep = ad.1 /\ Storage.key dep = k) (Storage.deploymentKeys s)).
    { apply map_Forall_to_list. eapply Forall_impl; [exact H1|]. intros [k' [a' d']] Hx. exact Hx. }
    exact (H k (a, d) Hk).
  - intros d dep Hd.
    assert (H : map_Forall (fun d dep => Storage.deploymentKeys s !! Storage.key dep =
                              Some (Storage.dep_app dep, d)) (Storage.deployments s)).
    { apply map_Forall_to_list. eapply Forall_impl; [exact H2|]. intros [d' dep'] Hx. exact Hx. }
    exact (H d dep Hd).
Qed.

Lemma transferApp_moves_ownership_witness :
  exists app',
    Storage.apps (Storage.transferApp 0 2 "b@example.com" StorageSamples.store_with_app).2 !! 2%N = Some app' /\
    Storage.collaborators app' !! "b@example.com" = Some (Storage.mkCollaborator Storage.Owner 1) /\
    Storage.permission <$> Storage.collaborators app' !! "a@example.com" = Some Storage.Collaborator.
Proof.
  destruct (transferApp_moves_ownership 0 2 1 "b@example.com" StorageSamples.store_with_app
    (Storage.transferApp 0 2 "b@example.com" StorageSamples.store_with_app).2
    (Storage.mkApp "app" {[ "a@example.com" := Storage.mkCollaborator Storage.Owner 0 ]})
    StorageSamples.account_a StorageSamples.account_b
    ltac:(vm_compute; reflexivity) ltac:(vm_compute; reflexivity) ltac:(vm_compute; reflexivity)
    ltac:(vm_compute; reflexivity) ltac:(vm_compute; reflexivity) ltac:(vm_compute; discriminate))
    as (app' & H1 & H2 & _ & H4 & _).
  exists app'. split; [exact H1|split; [exact H2|exact H4]].
Defined.

Lemma getPackageHistoryFromDeploymentKey_in_commit_order_witness :
  let s1 := (Storage.addDeployment 0 2 "Production" "key1" StorageSamples.store_with_app).2 in
  Storage.getPackageHistoryFromDeploymentKey "key1" s1 = (Storage.Ok [], s1) /\
  exists s2,
    Storage.commit_all 0 2 3 [StorageSamples.package "p1"; StorageSamples.package "p2"] s1 =
      (Storage.Ok (Storage.labelled 0 [StorageSamples.package "p1"; StorageSamples.package "p2"]), s2) /\
    Storage.getPackageHistoryFromDeploymentKey "key1" s2 =
      (Storage.Ok (Storage.labelled 0 [StorageSamples.package "p1"; StorageSamples.package "p2"]), s2).
Proof.
  destruct (getPackageHistoryFromDeploymentKey_in_commit_order 0 2 3 "Production" "key1"
    StorageSamples.store_with_app
    (Storage.addDeployment 0 2 "Production" "key1" StorageSamples.store_with_app).2
    [StorageSamples.package "p1"; StorageSamples.package "p2"]
    ltac:(vm_compute; reflexivity)) as (H1 & H2 & _).
  split; [exact H1|exact H2].
Defined.

Lemma removeApp_cascades_witness :
  let s' := (Storage.removeApp 0 2 StorageSamples.store_with_deployment).2 in
  (Storage.getApp 0 2 s').1 = Storage.Err NotFound /\
  (Storage.getDeployment 0 2 3 s').1 = Storage.Err NotFound /\
  (Storage.getPackageHistoryFromDeploymentKey "key1" s').1 = Storage.Err NotFound /\
  Storage.wf s'.
Proof.
  assert (Hw : Storage.wf StorageSamples.store_with_deployment).
  { apply wf_of_lists; vm_compute; repeat constructor; eexists; repeat split. }
  destruct (removeApp_cascades 0 2 StorageSamples.store_with_deployment
    (Storage.removeApp 0 2 StorageSamples.store_with_deployment).2 Hw
    ltac:(vm_compute; reflexivity)) as (H1 & H2 & H3 & _ & _ & H6).
  assert (Hd : exists dep, Storage.deployments StorageSamples.store_with_deployment !! 3%N = Some dep /\
                           Storage.dep_app dep = 2%N /\ Storage.key dep = "key1")
    by (eexists; vm_compute; repeat split).
  destruct Hd as (dep & Hd & Happ & Hkey).
  split; [apply H1|split; [apply H2|split; [|exact H6]]].
  rewrite <- Hkey. exact (proj2 (H3 3%N dep Hd Happ)).
Defined.

Lemma run_never_mutates_inputs_witness :
  let s0 := InputObjects.mkState
              {[ 1%positive := [("email", JStr "a@example.com")];
                 2%positive := [("id", JStr "1"); ("name", JStr "renamed")] ]} ∅ ∅ 0 in
  let ops := [InputObjects.AddAccount 1%positive; InputObjects.AddApp 0%N 1%positive;
              InputObjects.UpdateApp 0%N 2%positive] in
  InputObjects.heap (InputObjects.run s0 ops) !! 2%positive =
    Some [("id", JStr "1"); ("name", JStr "renamed")].
Proof.
  intros s0 ops.
  assert (Ht : InputObjects.table_owned s0).
  { intros k l H. vm_compute in H. discriminate H. }
  assert (Hl : 2%positive ∈ dom (InputObjects.heap s0)).
  { apply (bool_decide_unpack _). vm_compute. exact I. }
  assert (Hn : 2%positive ∉ InputObjects.owned s0).
  { apply (bool_decide_unpack _). vm_compute. exact I. }
  etransitivity; [exact (run_never_mutates_inputs s0 ops 2%positive Ht Hl Hn)|].
  vm_compute. reflexivity.
Defined.

(* ===================================================================== *)
(** * Further properties of the code                                      *)
(* ===================================================================== *)

(** ** Snake-case conversion ([utils/common.ts]) *)

Section SnakeCase.
Import Common.














Lemma get_set_prop (o : object) (k k' : string) (v : jsval) :
  get (InputObjects.set_prop o k' v) k = if String.eqb k k' then v else get o k.
Proof.
  induction o as [|[k0 v0] o IH]; cbn [InputObjects.set_prop get].
  - reflexivity.
  - destruct (String.eqb k' k0) eqn:E1.
    + apply String.eqb_eq in E1. subst. cbn [get].
      destruct (String.eqb k k0); reflexivity.
    + cbn [get]. rewrite IH.
      destruct (String.eqb k k0) eqn:E2; [|reflexivity].
      apply String.eqb_eq in E2. subst.
      rewrite String.eqb_sym, E1. reflexivity.
Qed.







Lemma get_fold_assign (l acc : object) (k : string) :
  k <> "__proto__" ->
  get (fold_left (fun acc kv => assign_key acc kv.1 kv.2) l acc) k =
  fold_left (fun a kv => if String.eqb kv.1 k then kv.2 else a) l (get acc k).
Proof.
  intros Hk. revert acc. induction l as [|[k' v] l IH]; intros acc; [reflexivity|].
  cbn [fold_left fst snd]. rewrite IH. f_equal. unfold assign_key.
  destruct (String.eqb k' "__proto__") eqn:Ep.
  - apply String.eqb_eq in Ep. subst.
    destruct (String.eqb "__proto__" k) eqn:E; [|reflexivity].
    apply String.eqb_eq in E. congruence.
  - rewrite get_set_prop, String.eqb_sym. reflexivity.
Qed.

Lemma fold_left_map_fields {A : Type} (g : A -> string * jsval -> A)
    (f : string * jsval -> string * jsval) (l : object) (a : A) :
  fold_left g (map f l) a = fold_left (fun a kv => g a (f kv)) l a.
Proof. revert a. induction l as [|kv l IH]; intros a; [reflexivity|]. apply IH. Qed.





(** When several keys of an object convert to the same snake-case key
    [k], the converted object holds under [k] the converted value of the
    last of them. *)
Theorem convertObjectToSnakeCase_last_key_wins (fs : object) (k : string) :
  k <> "__proto__" ->
  exists out, convertObjectToSnakeCase (JObj fs) = JObj out /\
    get out k = fold_left (fun a kv => if String.eqb (toSnakeCase kv.1) k
                                      then convertObjectToSnakeCase kv.2 else a) fs JUndefined.
Proof.
  intros Hk. eexists. split; [reflexivity|].
  rewrite get_fold_assign by exact Hk. cbn [get].
  rewrite fold_left_map_fields. reflexivity.
Qed.

End SnakeCase.

(** ** The update check ([routes/acquisition.ts]) *)

Section UpdateCheckPaths.
Import Acquisition.

(** A cache hit is answered from the cached response alone: its status
    code, the package chosen for the client, flagged as coming from the
    cache; storage is not read, the cache is not written and the error
    handler is not called, whatever the storage and the cache write would
    do. *)
Theorem updateCheck_cache_hit_sends_cached (env : Env) (newApi : bool) (req : Request.t)
    (r : CacheableResponse.t) (history : jsval -> settled (list Package.t)) (cache_write : settled unit) :
  updateCheck env newApi req (Resolved (Some r)) history cache_write =
  [ESend (CacheableResponse.statusCode r) newApi true
     (choose_update_info env (to_string (field2 (source_of req) "clientUniqueId" "client_unique_id")) r).1].
Proof.
  unfold updateCheck. destruct (cache_key env req) as [key url]. cbv zeta iota beta.
  rewrite bool_decide_true by (eexists; reflexivity).
  destruct (choose_update_info _ _ _) as [ui resp']. reflexivity.
Qed.

(** On a cache miss, a request that fails [isValidUpdateCheckRequest]
    after normalization gets exactly one malformed-request response: the
    deployment-key message if the key field is invalid, else the
    app-version message if the normalized version is invalid, else the
    generic one.  Storage is not read and nothing is written to the
    cache. *)
Theorem updateCheck_invalid_request_malformed (env : Env) (newApi : bool) (req : Request.t)
    (r : UpdateCheckRequest.t) (n : normalization)
    (history : jsval -> settled (list Package.t)) (cache_write : settled unit) :
  update_request req = Resolved r ->
  normalize_app_version (UpdateCheckRequest.appVersion r) = Resolved n ->
  isValidUpdateCheckRequest env (with_app_version r (normalized n)) = false ->
  updateCheck env newApi req (Resolved None) history cache_write =
  [EMalformed (if negb (isValidKeyField env (UpdateCheckRequest.deploymentKey r)) then MalformedDeploymentKey
               else if negb (isValidAppVersionField env (normalized n)) then MalformedAppVersion
               else MalformedRequest)].
Proof.
  intros Hr Hn Hv. unfold updateCheck. destruct (cache_key env req) as [key url].
  cbv zeta iota beta. rewrite bool_decide_false by (intros [? H]; discriminate H).
  unfold createResponseUsingStorage. rewrite Hr. cbv iota beta. rewrite Hn. cbv iota beta zeta.
  rewrite Hv. reflexivity.
Qed.

(** A truthy [isCompanion] (or [is_companion]) field that is not a
    string, such as the JSON boolean [true], has no [toLowerCase]: on a
    cache miss the update check sends nothing and ends in the error
    handler with a [TypeError]. *)
Theorem updateCheck_non_string_companion_fails (env : Env) (newApi : bool) (req : Request.t)
    (v : jsval) (history : jsval -> settled (list Package.t)) (cache_write : settled unit) :
  field2 (source_of req) "isCompanion" "is_companion" = v ->
  truthy v = true -> is_string v = false ->
  updateCheck env newApi req (Resolved None) history cache_write = [EErrorHandler TypeError].
Proof.
  intros Hf Ht Hs. unfold updateCheck. destruct (cache_key env req) as [key url].
  cbv zeta iota beta. rewrite bool_decide_false by (intros [? H]; discriminate H).
  unfold createResponseUsingStorage, update_request. rewrite Hf.
  unfold companion_flag. rewrite Ht.
  destruct v; try discriminate Hs; reflexivity.
Qed.

(** On a cache miss with a valid request and a storage success, the
    handler first sends the computed response (status 200, not from the
    cache), then writes it, with the package it sent, to the cache under
    the request's cache key; a failing cache write still reaches the error
    handler, after the response was sent. *)
Theorem updateCheck_miss_sends_then_caches (env : Env) (newApi : bool) (req : Request.t)
    (r : UpdateCheckRequest.t) (n : normalization) (ph : list Package.t)
    (history : jsval -> settled (list Package.t)) (cache_write : settled unit) :
  update_request req = Resolved r ->
  normalize_app_version (UpdateCheckRequest.appVersion r) = Resolved n ->
  isValidUpdateCheckRequest env (with_app_version r (normalized n)) = true ->
  history (UpdateCheckRequest.deploymentKey r) = Resolved ph ->
  let resp := CacheableResponse.mk 200
                (echo_original_app_version n (getUpdatePackageInfo env ph (with_app_version r (normalized n)))) in
  let cid := to_string (field2 (source_of req) "clientUniqueId" "client_unique_id") in
  updateCheck env newApi req (Resolved None) history cache_write =
    [ESend 200 newApi false (choose_update_info env cid resp).1;
     ECacheWrite (cache_key env req).1 (cache_key env req).2 (choose_update_info env cid resp).2]
    ++ match cache_write with Rejected e => [EErrorHandler e] | Resolved _ => [] end.
Proof.
  intros Hr Hn Hv Hh resp cid. unfold updateCheck. fold cid.
  destruct (cache_key env req) as [key url]. cbv zeta iota beta.
  rewrite bool_decide_false by (intros [? H]; discriminate H).
  unfold createResponseUsingStorage. rewrite Hr. cbv iota beta. rewrite Hn. cbv iota beta zeta.
  rewrite Hv. cbn [with_app_version UpdateCheckRequest.deploymentKey]. rewrite Hh.
  fold resp. destruct (choose_update_info env cid resp) as [ui resp'].
  cbn [fst snd CacheableResponse.statusCode resp].
  destruct cache_write; reflexivity.
Qed.

(** On a cache miss with a valid request, a failing storage lookup sends
    nothing and writes nothing to the cache: the storage error goes to the
    error handler. *)
Theorem updateCheck_storage_error_reaches_handler (env : Env) (newApi : bool) (req : Request.t)
    (r : UpdateCheckRequest.t) (n : normalization) (e : error)
    (history : jsval -> settled (list Package.t)) (cache_write : settled unit) :
  update_request req = Resolved r ->
  normalize_app_version (UpdateCheckRequest.appVersion r) = Resolved n ->
  isValidUpdateCheckRequest env (with_app_version r (normalized n)) = true ->
  history (UpdateCheckRequest.deploymentKey r) = Rejected e ->
  updateCheck env newApi req (Resolved None) history cache_write = [EErrorHandler e].
Proof.
  intros Hr Hn Hv Hh. unfold updateCheck.
  destruct (cache_key env req) as [key url]. cbv zeta iota beta.
  rewrite bool_decide_false by (intros [? H]; discriminate H).
  unfold createResponseUsingStorage. rewrite Hr. cbv iota beta. rewrite Hn. cbv iota beta zeta.
  rewrite Hv. cbn [with_app_version UpdateCheckRequest.deploymentKey]. rewrite Hh. reflexivity.
Qed.


(** A request without a client id ([clientUniqueId] absent or empty) is
    always given the original package, even when a rollout package
    exists. *)
Theorem choose_update_info_without_client_id (env : Env) (resp : CacheableResponse.t) :
  (choose_update_info env "" resp).1 =
  UpdateCheckResponse.set_target_binary_range (UpdateCheckCacheResponse.originalPackage (CacheableResponse.body resp))
    (UpdateCheckResponse.appVersion (UpdateCheckCacheResponse.originalPackage (CacheableResponse.body resp))).
Proof.
  destruct resp as [sc [op rpo ro]]. unfold choose_update_info, giveRolloutPackage.
  cbn. destruct rpo; reflexivity.
Qed.

End UpdateCheckPaths.

(** ** App-version normalization *)

Section NormalizationIdempotent.
Import Version VersionSpec.

Lemma span_digits_spec (s : string) :
  s = (span_digits s).1 +:+ (span_digits s).2 /\
  all_digits (span_digits s).1 = true /\ starts_non_digit (span_digits s).2.
Proof.
  induction s as [|c r IH]; [split; [reflexivity|split; [reflexivity|exact I]]|].
  cbn [span_digits]. destruct (is_digit c) eqn:Ec.
  - destruct (span_digits r) as [d t]. cbn [fst snd] in *. destruct IH as [-> [Hd Ht]].
    split; [reflexivity|]. split; [cbn [all_digits]; rewrite Ec, Hd; reflexivity|exact Ht].
  - split; [reflexivity|]. split; [reflexivity|exact Ec].
Qed.

Lemma nonempty_digits (s : string) : nonempty s = true -> all_digits s = true -> digits s.
Proof.
  intros Hn Ha. split; [|exact Ha]. intros ->. discriminate Hn.
Qed.

Lemma dot_char (c : ascii) : (nat_of_ascii c =? 46)%nat = true -> c = "."%char.
Proof.
  intros H. apply Nat.eqb_eq in H. rewrite <- (ascii_nat_embedding c), H. reflexivity.
Qed.

Lemma missing_decompose (s : string) :
  is_missing_patch_version s = true ->
  exists a b r, s = a +:+ "." +:+ b +:+ r /\ digits a /\ digits b /\
                starts_non_digit r /\ opt_tag_end r = true.
Proof.
  unfold is_missing_patch_version. pose proof (span_digits_spec s) as [Hs [Ha _]].
  destruct (span_digits s) as [a r1]. cbn [fst snd] in *.
  destruct r1 as [|c r2]; [discriminate|].
  destruct (nat_of_ascii c =? 46)%nat eqn:Ec; [|discriminate]. apply dot_char in Ec. subst c.
  pose proof (span_digits_spec r2) as [Hr2 [Hb Hr3]].
  destruct (span_digits r2) as [b r3]. cbn [fst snd] in *.
  intros H. apply andb_true_iff in H as [H Ht]. apply andb_true_iff in H as [Hna Hnb].
  exists a, b, r3. split; [|split; [|split; [|split]]].
  - rewrite Hs, Hr2. reflexivity.
  - apply nonempty_digits; assumption.
  - apply nonempty_digits; assumption.
  - exact Hr3.
  - exact Ht.
Qed.

Lemma normalize_dotted (a b r : string) :
  all_digits a = true -> all_digits b = true ->
  Acquisition.normalize_app_version (JStr (a +:+ "." +:+ b +:+ String "." r)) =
  Resolved (Acquisition.mkNormalization (JStr (a +:+ "." +:+ b +:+ String "." r)) None false false).
Proof.
  intros Ha Hb. unfold Acquisition.normalize_app_version. cbn [to_string].
  rewrite (plain_of_dot a _ Ha). cbv iota beta zeta. cbn [to_string].
  rewrite missing_of_dot by (exact Ha || exact Hb || exact eq_refl).
  cbn [opt_tag_end is_tag_start]. rewrite andb_false_r. reflexivity.
Qed.

Lemma plain_digits (s : string) : is_plain_integer_number s = true -> digits s.
Proof.
  unfold is_plain_integer_number. pose proof (span_digits_spec s) as [Hs [Hd _]].
  destruct (span_digits s) as [d t]. cbn [fst snd] in *.
  intros H. apply andb_true_iff in H as [Hn Ht]. apply String.eqb_eq in Ht. subst t.
  rewrite append_nil_r' in Hs. subst s. apply nonempty_digits; assumption.
Qed.

End NormalizationIdempotent.


(** A normalized app version is a fixed point: normalizing it again
    leaves it unchanged, with neither the plain-integer nor the
    missing-patch flag set. *)
Theorem normalize_app_version_idempotent (v : jsval) (n : Acquisition.normalization) :
  Acquisition.normalize_app_version v = Resolved n ->
  Acquisition.normalize_app_version (Acquisition.normalized n) =
  Resolved (Acquisition.mkNormalization (Acquisition.normalized n) None false false).
Proof.
  intros Hn. destruct (Version.is_plain_integer_number (to_string v)) eqn:Ep.
  - apply plain_digits in Ep as Hd.
    unfold Acquisition.normalize_app_version in Hn. rewrite Ep in Hn. cbv iota beta zeta in Hn.
    cbn [to_string] in Hn.
    change ".0.0" with ("." +:+ "0" +:+ String "." "0") in Hn.
    rewrite missing_of_dot in Hn by (exact (proj2 Hd) || exact eq_refl).
    cbn [Version.opt_tag_end Version.is_tag_start] in Hn. rewrite andb_false_r in Hn.
    injection Hn as <-. cbn [Acquisition.normalized].
    apply normalize_dotted; [exact (proj2 Hd)|reflexivity].
  - destruct (Version.is_missing_patch_version (to_string v)) eqn:Em.
    + assert (Hs : exists s, v = JStr s).
      { destruct v; try (eexists; reflexivity);
          unfold Acquisition.normalize_app_version in Hn; rewrite Ep, Em in Hn;
          cbv iota beta zeta in Hn; discriminate Hn. }
      destruct Hs as [s ->]. cbn [to_string] in Em.
      apply missing_decompose in Em as (a & b & r & -> & Ha & Hb & Hr & Ht).
      destruct r as [|c t].
      * rewrite append_nil_r' in Hn.
        rewrite (normalize_two a b Ha Hb) in Hn. injection Hn as <-.
        apply normalize_dotted; [exact (proj2 Ha)|exact (proj2 Hb)].
      * cbn [Version.opt_tag_end] in Ht. apply andb_true_iff in Ht as [Hc Ht].
        rewrite (normalize_tagged a b c t Ha Hb Hc Ht) in Hn. injection Hn as <-.
        cbn [Acquisition.normalized].
        change (".0" +:+ String c t) with (String "." ("0" +:+ String c t)).
        apply normalize_dotted; [exact (proj2 Ha)|exact (proj2 Hb)].
    + assert (Hv : Acquisition.normalize_app_version v =
                   Resolved (Acquisition.mkNormalization v None false false)).
      { unfold Acquisition.normalize_app_version. rewrite Ep. cbv iota beta zeta.
        rewrite Em. reflexivity. }
      rewrite Hv in Hn. injection Hn as <-. exact Hv.
Qed.

(** ** Query strings and cache keys *)

Section QueryString.
Import Acquisition.

Lemma hex_digit_nat (k : nat) : (k < 16)%nat ->
  nat_of_ascii (hex_digit k) = if (k <? 10)%nat then (48 + k)%nat else (55 + k)%nat.
Proof.
  intros Hk. unfold hex_digit. destruct (k <? 10)%nat; apply nat_ascii_embedding; lia.
Qed.

Lemma hex_digit_unreserved (k : nat) : (k < 16)%nat -> unreserved (hex_digit k) = true.
Proof.
  intros Hk. do 16 (destruct k as [|k]; [reflexivity|]). lia.
Qed.

Lemma hex_digit_inj (k l : nat) : (k < 16)%nat -> (l < 16)%nat -> hex_digit k = hex_digit l -> k = l.
Proof.
  intros Hk Hl H. apply (f_equal nat_of_ascii) in H.
  rewrite !hex_digit_nat in H by assumption.
  destruct (Nat.ltb_spec k 10), (Nat.ltb_spec l 10); lia.
Qed.

Lemma byte_digits (c : ascii) : (nat_of_ascii c / 16 < 16)%nat /\ (nat_of_ascii c mod 16 < 16)%nat.
Proof.
  pose proof (nat_ascii_bounded c). split; [apply Nat.Div0.div_lt_upper_bound; lia|apply Nat.mod_upper_bound; lia].
Qed.

Lemma qs_escape_cons (c : ascii) (r : string) :
  qs_escape (String c r) =
  if unreserved c then String c (qs_escape r)
  else String "%" (String (hex_digit (nat_of_ascii c / 16)) (String (hex_digit (nat_of_ascii c mod 16)) (qs_escape r))).
Proof. reflexivity. Qed.

(** [querystring.escape] output consists of unreserved characters and
    [%] only: an escaped key or value never contains [&], [=] or [?], the
    separators of the cache key. *)
Theorem qs_escape_alphabet (s : string) :
  Forall (fun c => unreserved c = true \/ c = "%"%char) (list_ascii_of_string (qs_escape s)).
Proof.
  induction s as [|c r IH]; [constructor|].
  rewrite qs_escape_cons. destruct (unreserved c) eqn:Ec; cbn [list_ascii_of_string].
  - constructor; [left; exact Ec|exact IH].
  - destruct (byte_digits c) as [H1 H2].
    constructor; [right; reflexivity|].
    constructor; [left; apply hex_digit_unreserved, H1|].
    constructor; [left; apply hex_digit_unreserved, H2|exact IH].
Qed.

(** [querystring.escape] is injective: different keys or values give
    different text in the cache key. *)
Theorem qs_escape_injective (s1 s2 : string) : qs_escape s1 = qs_escape s2 -> s1 = s2.
Proof.
  revert s2. induction s1 as [|c1 r1 IH]; intros [|c2 r2] H.
  - reflexivity.
  - rewrite qs_escape_cons in H. destruct (unreserved c2); discriminate H.
  - rewrite qs_escape_cons in H. destruct (unreserved c1); discriminate H.
  - rewrite !qs_escape_cons in H.
    destruct (unreserved c1) eqn:E1, (unreserved c2) eqn:E2.
    + injection H as -> H. f_equal. apply IH, H.
    + injection H as -> _. discriminate E1.
    + injection H as <- _. discriminate E2.
    + assert (H1 : hex_digit (nat_of_ascii c1 / 16) = hex_digit (nat_of_ascii c2 / 16)) by congruence.
      assert (H2 : hex_digit (nat_of_ascii c1 mod 16) = hex_digit (nat_of_ascii c2 mod 16)) by congruence.
      assert (H3 : qs_escape r1 = qs_escape r2) by congruence.
      f_equal; [|apply IH, H3].
      destruct (byte_digits c1) as [A1 B1], (byte_digits c2) as [A2 B2].
      apply hex_digit_inj in H1; [|assumption|assumption].
      apply hex_digit_inj in H2; [|assumption|assumption].
      rewrite <- (ascii_nat_embedding c1), <- (ascii_nat_embedding c2). f_equal.
      rewrite (Nat.div_mod_eq (nat_of_ascii c1) 16), (Nat.div_mod_eq (nat_of_ascii c2) 16).
      rewrite H1, H2. reflexivity.
Qed.

Lemma get_delete_keys_in (ks : list string) (o : object) (k : string) :
  existsb (String.eqb k) ks = true -> get (delete_keys ks o) k = JUndefined.
Proof.
  intros Hk. induction o as [|[k' v] o IH]; [reflexivity|].
  cbn [delete_keys List.filter fst]. destruct (existsb (String.eqb k') ks) eqn:E; cbn [negb].
  - exact IH.
  - cbn [get]. destruct (String.eqb k k') eqn:Ekk; [|exact IH].
    apply String.eqb_eq in Ekk. subst k'. congruence.
Qed.

(** [sanitizeClientQuery] removes [clientUniqueId] and [client_unique_id]
    and keeps the value of every other field. *)
Theorem sanitizeClientQuery_lookup (q : object) (k : string) :
  get (sanitizeClientQuery q) k =
  if existsb (String.eqb k) client_id_fields then JUndefined else get q k.
Proof.
  unfold sanitizeClientQuery. destruct (existsb (String.eqb k) client_id_fields) eqn:E.
  - apply get_delete_keys_in, E.
  - apply get_delete_keys, E.
Qed.

End QueryString.

(** ** The report-status handlers ([routes/acquisition.ts]) *)

Section ReportStatus.
Import Report.

Ltac split_conditions :=
  repeat match goal with
  | |- context [if ?c then _ else _] => destruct c eqn:?
  | |- context [match ?x with Resolved _ => _ | Rejected _ => _ end] => destruct x eqn:?
  end.

Ltac bool_facts :=
  repeat match goal with
  | H : (_ && _) = true |- _ => apply andb_true_iff in H as [? ?]
  | H : (_ || _) = false |- _ => apply orb_false_iff in H as [? ?]
  | H : negb _ = false |- _ => apply negb_false_iff in H
  | H : negb _ = true |- _ => apply negb_true_iff in H
  end.

(** Every download report gets exactly one response.  The only redis call
    it makes is one [incrementLabelStatusCount] of the [DOWNLOADED]
    counter for the reported deployment key and label, made exactly when
    the body carries both; a request without a body fails with a
    [TypeError] before the validation. *)
Theorem reportStatusDownload_one_response (renv : RedisEnv) (body : option object)
    (redis : redis_call -> settled unit) :
  let tr := reportStatusDownload renv body redis in
  List.length (List.filter is_response tr) = 1%nat /\
  calls tr =
    match body with
    | Some b =>
        if truthy (or (get b "deploymentKey") (get b "deployment_key")) && truthy (get b "label")
        then [IncrementLabelStatusCount (or (get b "deploymentKey") (get b "deployment_key"))
                (get b "label") (JStr (DOWNLOADED renv))]
        else []
    | None => []
    end /\
  (body = None -> tr = [Throw TypeError]).
Proof.
  cbv zeta. destruct body as [b|]; [|split; [reflexivity|split; reflexivity]].
  unfold reportStatusDownload.
  destruct (truthy (or (get b "deploymentKey") (get b "deployment_key"))),
           (truthy (get b "label")); cbn [negb orb andb];
    try (split; [reflexivity|split; [reflexivity|discriminate]]).
  destruct (redis _); (split; [reflexivity|split; [reflexivity|discriminate]]).
Qed.

(** Every deploy report gets exactly one response, whichever path it
    takes and whatever redis answers. *)
Theorem reportStatusDeploy_one_response (renv : RedisEnv) (metricsSdk : bool) (body : option object)
    (redis : redis_call -> settled unit) (currentLabel : settled jsval) :
  List.length (List.filter is_response (reportStatusDeploy renv metricsSdk body redis currentLabel)) = 1%nat.
Proof.
  destruct body as [b|]; [|reflexivity].
  unfold reportStatusDeploy. cbv zeta. split_conditions; reflexivity.
Qed.

(** A deploy report answered with a malformed-request error has made no
    redis call. *)
Theorem reportStatusDeploy_malformed_no_call (renv : RedisEnv) (metricsSdk : bool) (body : option object)
    (redis : redis_call -> settled unit) (currentLabel : settled jsval) (m : malformed) :
  In (Malformed m) (reportStatusDeploy renv metricsSdk body redis currentLabel) ->
  calls (reportStatusDeploy renv metricsSdk body redis currentLabel) = [].
Proof.
  destruct body as [b|]; [|reflexivity].
  unfold reportStatusDeploy. cbv zeta. split_conditions; cbn; intros H;
    repeat (destruct H as [H|H]; [discriminate H|]); try reflexivity; destruct H.
Qed.


(** With a metrics-capable SDK, [removeDeploymentKeyClientActiveLabel] is
    the last thing the handler does, right after the 200 response: it is
    not awaited, so its failure can no longer change the response. *)
Theorem reportStatusDeploy_remove_after_response (renv : RedisEnv) (b : object)
    (redis : redis_call -> settled unit) (currentLabel : settled jsval) (d cid : jsval) :
  In (Call (RemoveDeploymentKeyClientActiveLabel d cid)) (reportStatusDeploy renv true (Some b) redis currentLabel) ->
  exists pre, reportStatusDeploy renv true (Some b) redis currentLabel =
              pre ++ [SendStatus 200; Call (RemoveDeploymentKeyClientActiveLabel d cid)].
Proof.
  unfold reportStatusDeploy. cbv zeta. split_conditions; cbn; intros H;
    repeat (destruct H as [H|H];
            [first [discriminate H | injection H as <- <-; eexists [_]; reflexivity]|]);
    destruct H.
Qed.

(** With an older SDK and a known current label, the handler never calls
    [recordUpdate] or [removeDeploymentKeyClientActiveLabel].  It counts the
    status of a labelled report only when the label differs from the
    client's current one, and moves the client's active label only for
    such a report with status [DEPLOYMENT_SUCCEEDED] (to the reported
    label) or for an unlabelled report whose app version differs from the
    current label (to that app version).  A report of what the client
    already runs only reads. *)
Theorem reportStatusDeploy_legacy_calls (renv : RedisEnv) (b : object)
    (redis : redis_call -> settled unit) (cur : jsval) :
  let label := get b "label" in
  let status := get b "status" in
  let deploymentKey := or (get b "deploymentKey") (get b "deployment_key") in
  let appVersion := or (get b "appVersion") (get b "app_version") in
  let clientUniqueId := or (get b "clientUniqueId") (get b "client_unique_id") in
  Forall (fun c =>
    match c with
    | GetCurrentActiveLabel d cid => d = deploymentKey /\ cid = clientUniqueId
    | IncrementLabelStatusCount d l s =>
        d = deploymentKey /\ l = label /\ s = status /\
        truthy label = true /\ Acquisition.strict_eq label cur = false
    | UpdateActiveAppForClient d cid to from =>
        d = deploymentKey /\ cid = clientUniqueId /\
        ((truthy label = true /\ Acquisition.strict_eq label cur = false /\
          Acquisition.strict_eq status (JStr (DEPLOYMENT_SUCCEEDED renv)) = true /\ to = label /\ from = cur) \/
         (truthy label = false /\ Acquisition.strict_eq appVersion cur = false /\
          to = appVersion /\ from = appVersion))
    | RecordUpdate _ _ _ _ | RemoveDeploymentKeyClientActiveLabel _ _ => False
    end)
    (calls (reportStatusDeploy renv false (Some b) redis (Resolved cur))).
Proof.
  cbv zeta. unfold reportStatusDeploy. cbv zeta. split_conditions; cbn;
    bool_facts; repeat constructor; try assumption;
    first [left; repeat split; assumption | right; repeat split; assumption].
Qed.

End ReportStatus.

(** ** Instances of the further properties *)



Lemma convertObjectToSnakeCase_last_key_wins_witness :
  "foo_bar" <> "__proto__" /\
  exists out, Common.convertObjectToSnakeCase (JObj [("fooBar", JNum 1); ("foo_bar", JNum 2)]) = JObj out /\
              get out "foo_bar" = JNum 2.
Proof.
  assert (Hk : "foo_bar" <> "__proto__") by discriminate.
  split; [exact Hk|].
  destruct (convertObjectToSnakeCase_last_key_wins [("fooBar", JNum 1); ("foo_bar", JNum 2)] "foo_bar" Hk)
    as [out [H1 H2]].
  exists out. split; [exact H1|]. rewrite H2. vm_compute. reflexivity.
Defined.

Lemma updateCheck_invalid_request_malformed_witness :
  let req := Request.mk "GET" "/updateCheck" "/updateCheck" [("appVersion", JStr "1.0.0")] None in
  let r := UpdateCheckRequest.mk (JStr "") (JStr "1.0.0") (JStr "") (JStr "") "" in
  let n := Acquisition.mkNormalization (JStr "1.0.0") None false false in
  Acquisition.update_request req = Resolved r /\
  Acquisition.normalize_app_version (UpdateCheckRequest.appVersion r) = Resolved n /\
  isValidUpdateCheckRequest Samples.sample_env (Acquisition.with_app_version r (Acquisition.normalized n)) = false /\
  Acquisition.updateCheck Samples.sample_env false req (Resolved None) (fun _ => Resolved [])
    (Resolved tt) = [Acquisition.EMalformed Acquisition.MalformedDeploymentKey].
Proof.
  cbv zeta.
  match goal with |- ?H1 /\ ?H2 /\ ?H3 /\ Acquisition.updateCheck ?env ?na ?req ?c ?h ?w = _ =>
    assert (E1 : H1) by (vm_compute; reflexivity);
    assert (E2 : H2) by (vm_compute; reflexivity);
    assert (E3 : H3) by (vm_compute; reflexivity);
    split; [exact E1|split; [exact E2|split; [exact E3|]]];
    rewrite (updateCheck_invalid_request_malformed env na req _ _ h w E1 E2 E3);
    vm_compute; reflexivity end.
Defined.

Lemma updateCheck_non_string_companion_fails_witness :
  let req := Request.mk "POST" "/updateCheck" "/updateCheck" []
               (Some [("deploymentKey", JStr "k1"); ("appVersion", JStr "1.0.0"); ("isCompanion", JBool true)]) in
  Acquisition.field2 (Acquisition.source_of req) "isCompanion" "is_companion" = JBool true /\
  Acquisition.updateCheck Samples.sample_env false req (Resolved None) (fun _ => Resolved [])
    (Resolved tt) = [Acquisition.EErrorHandler TypeError].
Proof.
  cbv zeta.
  match goal with |- ?H1 /\ Acquisition.updateCheck ?env ?na ?req ?c ?h ?w = _ =>
    assert (E1 : H1) by (vm_compute; reflexivity);
    split; [exact E1|];
    exact (updateCheck_non_string_companion_fails env na req (JBool true) h w E1 eq_refl eq_refl) end.
Defined.

Lemma updateCheck_miss_sends_then_caches_witness :
  let req := Samples.get_request "1.0.0" in
  let r := UpdateCheckRequest.mk (JStr "k1") (JStr "1.0.0") (JStr "") (JStr "") "" in
  let n := Acquisition.mkNormalization (JStr "1.0.0") None false false in
  Acquisition.update_request req = Resolved r /\
  Acquisition.normalize_app_version (UpdateCheckRequest.appVersion r) = Resolved n /\
  isValidUpdateCheckRequest Samples.sample_env (Acquisition.with_app_version r (Acquisition.normalized n)) = true /\
  exists sent cached,
    Acquisition.updateCheck Samples.sample_env false req (Resolved None) (fun _ => Resolved [])
      (Rejected (RedisError "write")) =
    [Acquisition.ESend 200 false false sent;
     Acquisition.ECacheWrite "hash:k1" "/updateCheck?deploymentKey=k1&appVersion=1.0.0" cached;
     Acquisition.EErrorHandler (RedisError "write")].
Proof.
  cbv zeta.
  match goal with |- ?H1 /\ ?H2 /\ ?H3 /\ exists _ _, Acquisition.updateCheck ?env ?na ?req ?c ?h ?w = _ =>
    assert (E1 : H1) by (vm_compute; reflexivity);
    assert (E2 : H2) by (vm_compute; reflexivity);
    assert (E3 : H3) by (vm_compute; reflexivity);
    split; [exact E1|split; [exact E2|split; [exact E3|]]];
    rewrite (updateCheck_miss_sends_then_caches env na req _ _ [] h w E1 E2 E3 eq_refl);
    vm_compute; eexists _, _; reflexivity end.
Defined.

Lemma updateCheck_storage_error_reaches_handler_witness :
  let req := Samples.get_request "1.0.0" in
  let r := UpdateCheckRequest.mk (JStr "k1") (JStr "1.0.0") (JStr "") (JStr "") "" in
  let n := Acquisition.mkNormalization (JStr "1.0.0") None false false in
  Acquisition.update_request req = Resolved r /\
  Acquisition.normalize_app_version (UpdateCheckRequest.appVersion r) = Resolved n /\
  isValidUpdateCheckRequest Samples.sample_env (Acquisition.with_app_version r (Acquisition.normalized n)) = true /\
  Acquisition.updateCheck Samples.sample_env false req (Resolved None)
    (fun _ => Rejected (StorageError NotFound "no deployment")) (Resolved tt) =
  [Acquisition.EErrorHandler (StorageError NotFound "no deployment")].
Proof.
  cbv zeta.
  match goal with |- ?H1 /\ ?H2 /\ ?H3 /\ Acquisition.updateCheck ?env ?na ?req ?c ?h ?w = _ =>
    assert (E1 : H1) by (vm_compute; reflexivity);
    assert (E2 : H2) by (vm_compute; reflexivity);
    assert (E3 : H3) by (vm_compute; reflexivity);
    split; [exact E1|split; [exact E2|split; [exact E3|]]];
    exact (updateCheck_storage_error_reaches_handler env na req _ _ _ h w E1 E2 E3 eq_refl) end.
Defined.


Lemma normalize_app_version_idempotent_witness :
  let n := Acquisition.mkNormalization (JStr "2.0.0-beta") (Some (JStr "2.0-beta")) false true in
  Acquisition.normalize_app_version (JStr "2.0-beta") = Resolved n /\
  Acquisition.normalize_app_version (JStr "2.0.0-beta") =
  Resolved (Acquisition.mkNormalization (JStr "2.0.0-beta") None false false).
Proof.
  cbv zeta.
  match goal with |- ?H1 /\ _ =>
    assert (E1 : H1) by (vm_compute; reflexivity);
    split; [exact E1|exact (normalize_app_version_idempotent _ _ E1)] end.
Defined.

Lemma qs_escape_injective_witness :
  Acquisition.qs_escape "a b&c" = Acquisition.qs_escape "a b&c" /\ "a b&c" = "a b&c".
Proof.
  split; [reflexivity|]. exact (qs_escape_injective "a b&c" "a b&c" eq_refl).
Defined.

Lemma reportStatusDeploy_malformed_no_call_witness :
  let renv := Report.mkRedisEnv "Downloaded" "DeploymentFailed" "DeploymentSucceeded"
                (fun s => Acquisition.strict_eq s (JStr "DeploymentSucceeded") || Acquisition.strict_eq s (JStr "DeploymentFailed")) in
  let b := [("deploymentKey", JStr "k1"); ("label", JStr "v1"); ("status", JStr "Unknown");
            ("appVersion", JStr "1.0.0")] in
  In (Report.Malformed (Report.InvalidStatus (JStr "Unknown")))
     (Report.reportStatusDeploy renv true (Some b) (fun _ => Resolved tt) (Resolved JNull)) /\
  Report.calls (Report.reportStatusDeploy renv true (Some b) (fun _ => Resolved tt) (Resolved JNull)) = [].
Proof.
  cbv zeta.
  match goal with |- ?H1 /\ Report.calls (Report.reportStatusDeploy ?renv ?m ?b ?rd ?cl) = _ =>
    assert (E1 : H1) by (vm_compute; left; reflexivity);
    split; [exact E1|exact (reportStatusDeploy_malformed_no_call renv m b rd cl _ E1)] end.
Defined.

Lemma reportStatusDeploy_remove_after_response_witness :
  let renv := Report.mkRedisEnv "Downloaded" "DeploymentFailed" "DeploymentSucceeded"
                (fun s => Acquisition.strict_eq s (JStr "DeploymentSucceeded") || Acquisition.strict_eq s (JStr "DeploymentFailed")) in
  let b := [("deploymentKey", JStr "k2"); ("label", JStr "v2"); ("status", JStr "DeploymentSucceeded");
            ("appVersion", JStr "1.0.0"); ("previousDeploymentKey", JStr "k1");
            ("clientUniqueId", JStr "c1")] in
  In (Report.Call (Report.RemoveDeploymentKeyClientActiveLabel (JStr "k1") (JStr "c1")))
     (Report.reportStatusDeploy renv true (Some b) (fun _ => Resolved tt) (Resolved JNull)) /\
  exists pre, Report.reportStatusDeploy renv true (Some b) (fun _ => Resolved tt) (Resolved JNull) =
              pre ++ [Report.SendStatus 200;
                      Report.Call (Report.RemoveDeploymentKeyClientActiveLabel (JStr "k1") (JStr "c1"))].
Proof.
  cbv zeta.
  match goal with |- ?H1 /\ exists _, Report.reportStatusDeploy ?renv _ (Some ?b) ?rd ?cl = _ =>
    assert (E1 : H1) by (vm_compute; right; right; left; reflexivity);
    split; [exact E1|exact (reportStatusDeploy_remove_after_response renv b rd cl _ _ E1)] end.
Defined.
